(** * Athena_AI: the PDF ingestion, chunking, indexing and retrieval pipeline

    A shallow embedding of [rag-pdf/upload_ingest_faiss.py] and
    [rag-pdf/rag_chat.py].

    Python values are modelled as follows.
    - [str] is a list of Unicode code points ([list N]); [len], [strip],
      slicing and truthiness follow CPython.
    - [int] is [Z]; slices take signed indices as Python does.
    - [set] of page numbers is [gset Z]; [sorted] is a merge sort of its
      elements.
    - [dict] with string keys is [gmap pystr _].
    - The file system, the environment and the diagnostic log are an explicit
      [World] threaded through the functions that touch them.
    - Exceptions are the [Raised] outcome of an [outcome].
    - The chunk generator contains a [while] loop that need not terminate, so
      it is run with a bound on the iterations of that loop and reports
      whether it ran to completion. *)

From Stdlib Require Import ZArith List Lia Ascii String DecimalString.
From stdpp Require Import gmap list sorting.

Local Open Scope Z_scope.

(* ===================================================================== *)
(** ** Python strings *)
(* ===================================================================== *)

Module Py.

(** A Python [str]: a sequence of code points. *)
Abbreviation pystr := (list N).

(** A string literal of the source, character by character. *)
Definition lit (s : String.string) : pystr :=
  List.map N_of_ascii (list_ascii_of_string s).

(** [len(s)] as a Python int. *)
Definition len {A} (s : list A) : Z := Z.of_nat (length s).

(** [c.isspace()] for one code point: the code points CPython treats as
    whitespace. *)
Definition isspace (c : N) : bool :=
  (((9 <=? c) && (c <=? 13)) || ((28 <=? c) && (c <=? 32))
   || (c =? 133) || (c =? 160) || (c =? 5760)
   || ((8192 <=? c) && (c <=? 8202))
   || (c =? 8232) || (c =? 8233) || (c =? 8239) || (c =? 8287)
   || (c =? 12288))%N.

(** [s.lstrip()], [s.rstrip()] and [s.strip()]. *)
Fixpoint lstrip (s : pystr) : pystr :=
  match s with
  | [] => []
  | c :: s' => if isspace c then lstrip s' else s
  end.

Definition rstrip (s : pystr) : pystr := rev (lstrip (rev s)).

Definition strip (s : pystr) : pystr := rstrip (lstrip s).

(** Truth value of a string: non-empty. *)
Definition truthy (s : pystr) : bool :=
  match s with [] => false | _ => true end.

(** A slice bound, clamped the way Python clamps it: a negative bound counts
    from the end, and the result is forced into [0, len]. *)
Definition clamp (n : nat) (i : Z) : nat :=
  Z.to_nat (if i <? 0 then Z.max (Z.of_nat n + i) 0 else Z.min i (Z.of_nat n)).

(** [s[:stop]] and [s[start:]]. *)
Definition slice_to {A} (s : list A) (stop : Z) : list A :=
  take (clamp (length s) stop) s.

Definition slice_from {A} (s : list A) (start : Z) : list A :=
  drop (clamp (length s) start) s.

(** [sep.join(parts)]. *)
Fixpoint join (sep : pystr) (parts : list pystr) : pystr :=
  match parts with
  | [] => []
  | [p] => p
  | p :: rest => p ++ sep ++ join sep rest
  end.

(** [s.lower()] on the ASCII letters. *)
Definition lower_char (c : N) : N :=
  if ((65 <=? c) && (c <=? 90))%N then (c + 32)%N else c.

(** [s.endswith(suffix)]. *)
Definition endswith (s suffix : pystr) : bool :=
  bool_decide (drop (length s - length suffix)%nat s = suffix).

(** The line feed character. *)
Definition NL : N := 10%N.

End Py.

Import Py.

(* ===================================================================== *)
(** ** The chunking engine: [chunks_from_pages] *)
(* ===================================================================== *)

(** One yielded dictionary [{"text": ..., "pages": ...}]. *)
Record Chunk : Type := mkChunk { text : pystr; pages : list Z }.

(** [sorted(buffer_pages)] for a set of page numbers. *)
Definition sorted (s : gset Z) : list Z := merge_sort Z.le (elements s).

(** A page as the extractor yields it: [(page_num, page_text)]. *)
Definition Page : Type := (Z * pystr)%type.

(** The state of the generator between two pages: the accumulation buffer
    and the page numbers recorded since the last emission. *)
Definition ChunkerState : Type := (pystr * gset Z)%type.

(** The inner loop
<<
    while len(buffer) >= chunk_size:
        yield {"text": buffer[:chunk_size].strip(), "pages": sorted(buffer_pages)}
        buffer = buffer[chunk_size - overlap:]
        buffer_pages = set()
>>
    run for at most [fuel] iterations. The result is the chunks yielded and,
    when the loop exited, the state it exited with; [None] means that the
    guard still held after [fuel] iterations. *)
Fixpoint emit_loop (fuel : nat) (chunk_size overlap : Z)
    (buffer : pystr) (buffer_pages : gset Z) : list Chunk * option ChunkerState :=
  if len buffer >=? chunk_size then
    match fuel with
    | O => ([], None)
    | S fuel' =>
        let c := {| text := strip (slice_to buffer chunk_size);
                    pages := sorted buffer_pages |} in
        let '(out, st) :=
          emit_loop fuel' chunk_size overlap
                    (slice_from buffer (chunk_size - overlap)) ∅ in
        (c :: out, st)
    end
  else ([], Some (buffer, buffer_pages)).

(** The outer [for page_num, page_text in pages] loop followed by the
    emission of the remainder. The boolean tells whether the generator was
    exhausted (every inner loop exited within [fuel] iterations). *)
Fixpoint pages_loop (fuel : nat) (chunk_size overlap : Z) (ps : list Page)
    (buffer : pystr) (buffer_pages : gset Z) : list Chunk * bool :=
  match ps with
  | [] =>
      (if truthy (strip buffer)
       then [ {| text := strip buffer; pages := sorted buffer_pages |} ]
       else [],
       true)
  | (page_num, page_text) :: rest =>
      match emit_loop fuel chunk_size overlap
                      (buffer ++ NL :: page_text) ({[ page_num ]} ∪ buffer_pages) with
      | (out, None) => (out, false)
      | (out, Some (buffer', buffer_pages')) =>
          let '(more, fin) :=
            pages_loop fuel chunk_size overlap rest buffer' buffer_pages' in
          (out ++ more, fin)
      end
  end.

(** [chunks_from_pages(pages, chunk_size, overlap)]: the chunks yielded, and
    whether the generator was exhausted. *)
Definition chunks_from_pages (fuel : nat) (ps : list Page)
    (chunk_size overlap : Z) : list Chunk * bool :=
  pages_loop fuel chunk_size overlap ps [] ∅.

(** [list(chunks_from_pages(...))]: defined once the generator is exhausted. *)
Definition list_chunks (fuel : nat) (ps : list Page)
    (chunk_size overlap : Z) : option (list Chunk) :=
  let '(out, fin) := chunks_from_pages fuel ps chunk_size overlap in
  if fin then Some out else None.


(** The default arguments [chunk_size=1200, overlap=200]; the module
    constants [CHUNK_SIZE] and [OVERLAP] carry the same values. *)
Definition CHUNK_SIZE : Z := 1200.
Definition OVERLAP : Z := 200.

(** A bound on the iterations of the inner loop that is enough for the
    default arguments: one more than the number of characters the buffer
    receives in total. *)
Definition buffer_total (ps : list Page) : nat :=
  fold_right (fun p acc => (S (length (snd p)) + acc)%nat) 0%nat ps.

(** [list(chunks_from_pages(pages_gen))] as [process_and_index_faiss] calls
    it, with the default arguments. Lemma [chunk_objs_exhausted] below shows
    that the generator is exhausted within the bound used here, so this is
    the list that Python builds. *)
Definition chunk_objs (ps : list Page) : list Chunk :=
  fst (chunks_from_pages (S (buffer_total ps)) ps CHUNK_SIZE OVERLAP).

(** The buffer the generator has accumulated once every page is appended and
    nothing was emitted: each page's text preceded by a line feed. *)
Definition joined_pages (ps : list Page) : pystr :=
  flat_map (fun p => NL :: snd p) ps.

(** A page sequence is blank when every page's text is empty or consists of
    whitespace only. *)
Definition blank (s : pystr) : bool := forallb isspace s.
Definition blank_pages (ps : list Page) : bool := forallb (fun p => blank (snd p)) ps.

(** A chunk whose text is no longer than the window. *)
Definition within (chunk_size : Z) (c : Chunk) : Prop := len (text c) <= chunk_size.



(** The set of page numbers recorded after reading [ps]. *)
Definition pages_read (ps : list Page) : gset Z := list_to_set (List.map fst ps).

(** The emissions of a run, page by page: for every page read, its number
    and the number of chunks the inner loop yielded while that page was the
    last one read; and whether the remainder was yielded at the end. The
    loops are those of [pages_loop]; the page set plays no part in when a
    chunk is yielded, so the inner loop is run with an empty one. A run that
    is stopped by the iteration bound ends with the page it was reading. *)
Fixpoint emission_loop (fuel : nat) (chunk_size overlap : Z) (ps : list Page)
    (buffer : pystr) : list (Z * nat) * bool :=
  match ps with
  | [] => ([], truthy (strip buffer))
  | (page_num, page_text) :: rest =>
      match emit_loop fuel chunk_size overlap (buffer ++ NL :: page_text) ∅ with
      | (out, None) => ([ (page_num, length out) ], false)
      | (out, Some (buffer', _)) =>
          let '(more, remainder) := emission_loop fuel chunk_size overlap rest buffer' in
          ((page_num, length out) :: more, remainder)
      end
  end.

Definition emissions (fuel : nat) (ps : list Page) (chunk_size overlap : Z)
    : list (Z * nat) * bool :=
  emission_loop fuel chunk_size overlap ps [].


(* ===================================================================== *)
(** ** Values, documents, exceptions *)
(* ===================================================================== *)

(** The values stored in a metadata dictionary. *)
Inductive pyval : Type :=
  | VStr (s : pystr)
  | VInts (l : list Z).

(** A LangChain [Document]: [page_content] and the [metadata] dictionary. *)
Record Document : Type := mkDocument {
  page_content : pystr;
  metadata : gmap pystr pyval
}.

(** [d.get(key, default)]. *)
Definition dict_get (d : gmap pystr pyval) (key : pystr) (default : pyval) : pyval :=
  match d !! key with Some v => v | None => default end.

(** The exceptions the two modules raise or pass on. *)
Inductive Exn : Type :=
  | RuntimeError (msg : pystr)
  | HTTPException (status_code : Z) (detail : pystr)
  | OtherException (msg : pystr).

(** [str(e)]: the message of an exception; an [HTTPException] prints as
    ["<status_code>: <detail>"]. *)
Definition str_exn (e : Exn) : pystr :=
  match e with
  | RuntimeError msg => msg
  | HTTPException code detail =>
      lit (NilZero.string_of_int (Z.to_int code)) ++ lit ": " ++ detail
  | OtherException msg => msg
  end.

(** The outcome of a call: a returned value or a raised exception. *)
Inductive outcome (A : Type) : Type :=
  | Returned (a : A)
  | Raised (e : Exn).
Arguments Returned {A} a.
Arguments Raised {A} e.

(** The JSON object written to a pending file. *)
Record PendingBatch : Type := mkPendingBatch {
  pb_filename : pystr;
  pb_file_hash : pystr;
  pb_chunks : list pystr;
  pb_metadatas : list (gmap pystr pyval)
}.

(** The dictionaries returned by the ingestion functions, by ["status"]. *)
Inductive Response : Type :=
  | PendingEmbeddings (reason : option pystr) (pending_file : pystr) (chunks : Z)
  | Indexed (chunks : Z) (faiss_dir : pystr)
  | Uploaded (hash : pystr) (message : pystr).


(** One entry of the source list returned by [answer_question]. *)
Record SourceRecord : Type := mkSource {
  src_source : pyval;
  src_chunk : pyval;
  src_snippet : pystr
}.

(* ===================================================================== *)
(** ** External collaborators *)
(* ===================================================================== *)

(** What the pipeline consumes but does not implement: the upload's byte
    blocks, the hash function, the PDF text extractor, the embedding model,
    the vector search and the language model. *)
Class Backend : Type := {
  (** a block of bytes as [file.read] returns it, and its [len] *)
  Bytes : Type;
  blen : Bytes -> N;
  (** [hashlib.sha256] over a file's content, as a hex digest *)
  sha256_hexdigest : list Bytes -> pystr;
  (** [pdfplumber]: the page texts of a file, or the error it raises *)
  pdf_page_texts : list Bytes -> pystr + list pystr;
  (** an embedding vector *)
  Vec : Type;
  (** [OpenAIEmbeddings.embed_documents]: vectors, or the error raised *)
  embed_documents : list pystr -> pystr + list Vec;
  (** the retriever: the [k] documents most similar to the question *)
  similarity_search : list (Vec * Document) -> nat -> pystr -> list Document;
  (** [ChatOpenAI.invoke(prompt).content] *)
  llm_invoke : pystr -> pystr
}.

(* ===================================================================== *)
(** ** Configuration *)
(* ===================================================================== *)

Definition UPLOAD_DIR : pystr := lit "./uploads".
Definition FAISS_DIR : pystr := lit "./faiss_store".
Definition PENDING_DIR : pystr := lit "./faiss_store/pending".
Definition LOG_FILE : pystr := lit "indexing_errors.log".
Definition MAX_BYTES : Z := 200 * 1024 * 1024.
Definition OPENAI_API_KEY : pystr := lit "OPENAI_API_KEY".

(** [os.path.join(a, b)] on POSIX paths. *)
Definition path_join (a b : pystr) : pystr :=
  match b with
  | 47%N :: _ => b
  | _ => if bool_decide (a = []) || endswith a (lit "/")
         then a ++ b else a ++ lit "/" ++ b
  end.

(** [os.path.join(PENDING_DIR, f"pending_{file_hash}.json")]. *)
Definition pending_path (file_hash : pystr) : pystr :=
  path_join PENDING_DIR (lit "pending_" ++ file_hash ++ lit ".json").

(** The metadata dictionary [{"source": original_filename, "pages": c["pages"]}]. *)
Definition chunk_metadata (original_filename : pystr) (c : Chunk) : gmap pystr pyval :=
  <[ lit "source" := VStr original_filename ]>
    (<[ lit "pages" := VInts (pages c) ]> ∅).

(** The separator between the chunks of the context block. *)
Definition CONTEXT_SEP : pystr := [NL; NL] ++ lit "---" ++ [NL; NL].

(** The prompt of [answer_question], an f-string around the context and the
    question. *)
Definition prompt_of (context_text question : pystr) : pystr :=
  join [NL] (List.map lit
    [ ""%string;
      "You are an expert tutor."%string;
      ""%string;
      "Answer the user's question using ONLY the information in the context."%string;
      "Explain in clear, natural language in simple terms with examples if possible."%string;
      "give a concise, accurate answer.be kind and effective."%string;
      "Do NOT copy sentences."%string;
      "If the answer is missing, say so clearly."%string;
      ""%string;
      "Context:"%string;
      ""%string ])
  ++ context_text
  ++ join [NL] (List.map lit [ ""%string; ""%string; "Question:"%string; ""%string ])
  ++ question
  ++ join [NL] (List.map lit [ ""%string; ""%string; "Answer:"%string; ""%string ]).

(** The loop of [answer_question] over the retrieved documents, with its two
    accumulators [context_chunks] and [sources]. *)
Fixpoint filter_docs (docs : list Document)
    (context_chunks : list pystr) (sources : list SourceRecord)
    : list pystr * list SourceRecord :=
  match docs with
  | [] => (context_chunks, sources)
  | d :: rest =>
      let text := strip (page_content d) in
      if len text <? 80 then filter_docs rest context_chunks sources
      else
        filter_docs rest
          (context_chunks ++ [text])
          (sources ++ [ {| src_source := dict_get (metadata d) (lit "source") (VStr (lit "unknown"));
                           src_chunk := dict_get (metadata d) (lit "chunk") (VStr []);
                           src_snippet := slice_to text 300 |} ])
  end.

(** A retrieved document survives the filter when its trimmed text has at
    least 80 characters. *)
Definition survives (d : Document) : bool := negb (len (strip (page_content d)) <? 80).

(** The source record built for a surviving document. *)
Definition source_of (d : Document) : SourceRecord :=
  {| src_source := dict_get (metadata d) (lit "source") (VStr (lit "unknown"));
     src_chunk := dict_get (metadata d) (lit "chunk") (VStr []);
     src_snippet := slice_to (strip (page_content d)) 300 |}.

(** The fixed answers of [answer_question]. *)
Definition NO_DOCUMENTS : pystr := lit "No documents indexed yet.".
Definition NO_RELEVANT : pystr := lit "No relevant information found in the documents.".
Definition NOT_ENOUGH : pystr := lit "Not enough meaningful context to answer.".

(* ===================================================================== *)
(** ** The world and the functions that act on it *)
(* ===================================================================== *)

Section Pipeline.

Context `{B : Backend}.

(** The content of a file: uploaded bytes, a pending batch in JSON, the text
    of the log, or a saved FAISS store (its [index.faiss] and [index.pkl]
    taken together). *)
Inductive File : Type :=
  | FBytes (data : list Bytes)
  | FJson (batch : PendingBatch)
  | FText (content : pystr)
  | FIndex (store : list (Vec * Document)).

(** The state outside the process: environment variables, directories and
    files by path, the wall clock as [time.ctime()] prints it, and the jobs
    handed to [BackgroundTasks]. *)
Record World : Type := mkWorld {
  environ : gmap pystr pystr;
  dirs : gset pystr;
  files : gmap pystr File;
  ctime : pystr;
  background_tasks : list (pystr * pystr * pystr)
}.

Definition with_files (w : World) (fs : gmap pystr File) : World :=
  {| environ := environ w; dirs := dirs w; files := fs; ctime := ctime w;
     background_tasks := background_tasks w |}.

(** [os.getenv(name)] taken as a truth value. *)
Definition getenv_truthy (w : World) (name : pystr) : bool :=
  match environ w !! name with Some v => truthy v | None => false end.

(** [os.path.isdir], [os.path.exists], [os.remove]. *)
Definition isdir (w : World) (path : pystr) : bool := bool_decide (path ∈ dirs w).

Definition path_exists (w : World) (path : pystr) : bool :=
  bool_decide (is_Some (files w !! path)) || isdir w path.

Definition os_remove (path : pystr) (w : World) : World :=
  with_files w (delete path (files w)).

(** [open(path, "w")] followed by [json.dump(batch, fh)]: the file is
    replaced. *)
Definition write_json (path : pystr) (batch : PendingBatch) (w : World) : World :=
  with_files w (<[ path := FJson batch ]> (files w)).

(** [log_error(msg)]: one line appended to the log file. *)
Definition log_error (msg : pystr) (w : World) : World :=
  let line := ctime w ++ lit ": " ++ msg ++ [NL] in
  let old := match files w !! LOG_FILE with Some (FText s) => s | _ => [] end in
  with_files w (<[ LOG_FILE := FText (old ++ line) ]> (files w)).

(** The path under which the saved store of [FAISS_DIR] is kept. *)
Definition index_path : pystr := path_join FAISS_DIR (lit "index").

(** [faiss_store.save_local(FAISS_DIR)]: the directory is created when
    missing and the saved store is replaced. *)
Definition save_local (store : list (Vec * Document)) (w : World) : World :=
  {| environ := environ w; dirs := {[ FAISS_DIR ]} ∪ dirs w;
     files := <[ index_path := FIndex store ]> (files w); ctime := ctime w;
     background_tasks := background_tasks w |}.

(** [FAISS.load_local(FAISS_DIR, embeddings, ...)]. *)
Definition load_local (w : World) : outcome (list (Vec * Document)) :=
  match files w !! index_path with
  | Some (FIndex store) => Returned store
  | _ => Raised (OtherException (lit "could not open index"))
  end.

(** [FAISS.from_texts(texts, embedding, metadatas)]: a store of exactly the
    given texts, unless embedding them raises. *)
Definition from_texts (texts : list pystr) (metadatas : list (gmap pystr pyval))
    : outcome (list (Vec * Document)) :=
  match embed_documents texts with
  | inl err => Raised (OtherException err)
  | inr vectors => Returned (zip vectors (zip_with mkDocument texts metadatas))
  end.

(** [extract_text_page_by_page(pdf_path)]: pages numbered from 1. *)
Definition extract_text_page_by_page (w : World) (pdf_path : pystr)
    : outcome (list Page) :=
  match files w !! pdf_path with
  | Some (FBytes data) =>
      match pdf_page_texts data with
      | inl err => Raised (OtherException err)
      | inr texts => Returned (imap (fun i t => (Z.of_nat i + 1, t)) texts)
      end
  | _ => Raised (OtherException (lit "cannot open PDF"))
  end.

(** [init_embedder()]: an embedder exists when the API key is set. *)
Definition init_embedder (w : World) : option pystr :=
  if getenv_truthy w OPENAI_API_KEY then environ w !! OPENAI_API_KEY else None.

(** [process_and_index_faiss(pdf_path, original_filename, file_hash)]. *)
Definition process_and_index_faiss
    (pdf_path original_filename file_hash : pystr) (w : World)
    : World * outcome Response :=
  match extract_text_page_by_page w pdf_path with
  | Raised e => (w, Raised e)
  | Returned pages_gen =>
      let chunks := chunk_objs pages_gen in
      match chunks with
      | [] => (w, Raised (RuntimeError
                 (lit "No chunks extracted from PDF; check the PDF content / OCR.")))
      | _ :: _ =>
          let texts := List.map text chunks in
          let metadatas := List.map (chunk_metadata original_filename) chunks in
          let batch := {| pb_filename := original_filename; pb_file_hash := file_hash;
                          pb_chunks := texts; pb_metadatas := metadatas |} in
          match init_embedder w with
          | None =>
              let w1 := write_json (pending_path file_hash) batch w in
              let w2 := log_error (lit "No embedding key found; saved pending chunks to "
                                   ++ pending_path file_hash) w1 in
              (w2, Returned (PendingEmbeddings None (pending_path file_hash) (len texts)))
          | Some _ =>
              match from_texts texts metadatas with
              | Returned faiss_store =>
                  (save_local faiss_store w, Returned (Indexed (len texts) FAISS_DIR))
              | Raised e =>
                  let err := str_exn e in
                  let w1 := write_json (pending_path file_hash) batch w in
                  let w2 := log_error (lit "Embedding/indexing error: " ++ err) w1 in
                  (w2, Returned (PendingEmbeddings (Some err) (pending_path file_hash)
                                                   (len texts)))
              end
          end
      end
  end.

(** [out.write(chunk)] on the open upload file. *)
Definition append_bytes (path : pystr) (chunk : Bytes) (w : World) : World :=
  let old := match files w !! path with Some (FBytes d) => d | _ => [] end in
  with_files w (<[ path := FBytes (old ++ [chunk]) ]> (files w)).

(** The read loop of [upload_pdf]. [blocks] are the successive results of
    [file.read(1024 * 1024)]; once they are used up [read] returns [b""].
    [size] is the running byte count. *)
Fixpoint receive (blocks : list Bytes) (size : Z) (temp_path : pystr) (w : World)
    : World * outcome unit :=
  match blocks with
  | [] => (w, Returned tt)
  | chunk :: rest =>
      if (blen chunk =? 0)%N then (w, Returned tt)
      else
        let size := size + Z.of_N (blen chunk) in
        if size >? MAX_BYTES then
          (os_remove temp_path w, Raised (HTTPException 413 (lit "File too large.")))
        else receive rest size temp_path (append_bytes temp_path chunk w)
  end.

(** [sha256_of_file(path)]. *)
Definition sha256_of_file (w : World) (path : pystr) : outcome pystr :=
  match files w !! path with
  | Some (FBytes data) => Returned (sha256_hexdigest data)
  | _ => Raised (OtherException (lit "cannot open file"))
  end.

(** [background.add_task(process_and_index_faiss, temp_path, fname, file_hash)]. *)
Definition add_task (task : pystr * pystr * pystr) (w : World) : World :=
  {| environ := environ w; dirs := dirs w; files := files w; ctime := ctime w;
     background_tasks := background_tasks w ++ [task] |}.

(** The [try:] block of [upload_pdf]. *)
Definition upload_try (fname : pystr) (blocks : list Bytes) (background : bool)
    (temp_path : pystr) (w : World) : World * outcome Response :=
  match receive blocks 0 temp_path w with
  | (w1, Raised e) => (w1, Raised e)
  | (w1, Returned _) =>
      match sha256_of_file w1 temp_path with
      | Raised e => (w1, Raised e)
      | Returned file_hash =>
          if background then
            (add_task (temp_path, fname, file_hash) w1,
             Returned (Uploaded file_hash (lit "Indexing started in background.")))
          else process_and_index_faiss temp_path fname file_hash w1
      end
  end.

(** [upload_pdf(file, background)]. [temp_path] is the name [tempfile.mkstemp]
    picks; the file is created empty there. Every exception leaving the
    [try:] block is handled by [except Exception as e:], which removes the
    temporary file when it still exists and raises a 500. *)
Definition upload_pdf (fname : pystr) (blocks : list Bytes) (background : bool)
    (temp_path : pystr) (w : World) : World * outcome Response :=
  if negb (endswith (List.map lower_char fname) (lit ".pdf")) then
    (w, Raised (HTTPException 400 (lit "Only PDF files are accepted.")))
  else
    let w0 := with_files w (<[ temp_path := FBytes [] ]> (files w)) in
    match upload_try fname blocks background temp_path w0 with
    | (w1, Returned r) => (w1, Returned r)
    | (w1, Raised e) =>
        ((if path_exists w1 temp_path then os_remove temp_path w1 else w1),
         Raised (HTTPException 500 (str_exn e)))
    end.

(** [load_retriever()]: [None] without an index directory; otherwise the
    API key is required and the saved store is loaded. *)
Definition load_retriever (w : World) : outcome (option (list (Vec * Document))) :=
  if negb (isdir w FAISS_DIR) then Returned None
  else if negb (getenv_truthy w OPENAI_API_KEY) then
    Raised (RuntimeError (lit "OPENAI_API_KEY not set"))
  else
    match load_local w with
    | Raised e => Raised e
    | Returned db => Returned (Some db)
    end.

(** [answer_question(question)]: the answer and the source list. *)
Definition answer_question (question : pystr) (w : World)
    : outcome (pystr * list SourceRecord) :=
  match load_retriever w with
  | Raised e => Raised e
  | Returned None => Returned (NO_DOCUMENTS, [])
  | Returned (Some db) =>
      match similarity_search db 6 question with
      | [] => Returned (NO_RELEVANT, [])
      | docs =>
          let '(context_chunks, sources) := filter_docs docs [] [] in
          match context_chunks with
          | [] => Returned (NOT_ENOUGH, [])
          | _ =>
              let context_text := join CONTEXT_SEP context_chunks in
              Returned (strip (llm_invoke (prompt_of context_text question)), sources)
          end
      end
  end.

(** The number of bytes in the blocks of an upload. *)
Definition total_bytes (blocks : list Bytes) : Z :=
  fold_right (fun b acc => Z.of_N (blen b) + acc) 0 blocks.

End Pipeline.

(* ===================================================================== *)
(** ** Sample data *)
(* ===================================================================== *)

(** A string of [n] letters [a]. *)
Definition letters (n : nat) : pystr := replicate n 97%N.

(** A string of [n] spaces. *)
Definition spaces (n : nat) : pystr := replicate n 32%N.

(** A scanned document of [n] pages without a text layer: every page text is
    empty, pages are numbered from 1. *)
Definition scanned_pages (n : nat) : list Page :=
  imap (fun i t => (Z.of_nat i + 1, t)) (replicate n []).

(** A stand-in backend: a block of bytes is given by its length, a file of
    blocks reads as one page of letters per block, every text embeds, the
    search returns the first [k] stored documents. *)
Definition sample_backend : Backend :=
  {| Bytes := N;
     blen := fun n => n;
     sha256_hexdigest := fun _ => lit "ab12";
     pdf_page_texts := fun data => inr (List.map (fun n => letters (N.to_nat n)) data);
     Vec := unit;
     embed_documents := fun texts => inr (List.map (fun _ => tt) texts);
     similarity_search := fun store k _ => take k (List.map snd store);
     llm_invoke := fun _ => lit " An answer. " |}.

(** An empty world, with or without the API key. *)
Definition empty_world (key : bool) : @World sample_backend :=
  {| environ := if key then {[ OPENAI_API_KEY := lit "sk-test" ]} else ∅;
     dirs := ∅; files := ∅; ctime := lit "Tue Nov  3 12:00:00 2026";
     background_tasks := [] |}.

(** An upload of 200 MiB and one byte, read in blocks of 1 MiB. *)
Definition oversized_upload : list N := replicate 200 1048576%N ++ [1%N].

(** A world with an index directory but no API key. *)
Definition world_without_key : @World sample_backend :=
  {| environ := ∅; dirs := {[ FAISS_DIR ]}; files := ∅;
     ctime := lit "Tue Nov  3 12:00:00 2026"; background_tasks := [] |}.

(** A world holding two uploaded files of one block each, with the API key. *)
Definition world_with_two_pdfs (path1 : pystr) (block1 : N) (path2 : pystr) (block2 : N)
    : @World sample_backend :=
  with_files (empty_world true)
    (<[ path1 := FBytes (B := sample_backend) [block1] ]>
       {[ path2 := FBytes (B := sample_backend) [block2] ]}).

(** A world holding one uploaded file of one block. *)
Definition world_with_pdf (key : bool) (path : pystr) (block : N) : @World sample_backend :=
  with_files (empty_world key) {[ path := FBytes (B := sample_backend) [block] ]}.

(* ===================================================================== *)
(** ** The notes database of [rag_chat.py] *)
(* ===================================================================== *)

(** One row of the table [notes]. The two timestamps are the values of
    [CURRENT_TIMESTAMP]; they are kept as seconds, which orders them as
    SQLite orders their text form. *)
Record Note : Type := mkNote {
  note_id : Z;
  note_title : pystr;
  note_content : pystr;
  note_sources : pystr;
  note_created_at : Z;
  note_updated_at : Z
}.

(** The table [notes], with the counter that [AUTOINCREMENT] keeps in
    [sqlite_sequence]; the rows are in rowid order. *)
Record NotesTable : Type := mkNotesTable {
  sequence : Z;
  rows : list Note
}.

(** The database file [notes.db]: [None] while the table is not created. *)
Definition NotesDb : Type := option NotesTable.

(** The largest rowid in use (0 for an empty table). *)
Definition max_rowid (l : list Note) : Z :=
  fold_right (fun n acc => Z.max (note_id n) acc) 0 l.

(** [init_notes_db()]: [CREATE TABLE IF NOT EXISTS notes (...)]. *)
Definition init_notes_db (db : NotesDb) : NotesDb :=
  match db with
  | None => Some {| sequence := 0; rows := [] |}
  | Some t => Some t
  end.

(** The error SQLite reports for a statement on a missing table. *)
Definition NO_SUCH_TABLE : Exn := OtherException (lit "no such table: notes").

(** [create_note(title, content, sources)] at time [now]: one [INSERT]; the
    id is one more than the larger of the counter and the largest rowid. *)
Definition create_note (title content sources : pystr) (now : Z) (db : NotesDb)
    : NotesDb * outcome unit :=
  match db with
  | None => (db, Raised NO_SUCH_TABLE)
  | Some t =>
      let id := Z.max (sequence t) (max_rowid (rows t)) + 1 in
      (Some {| sequence := id;
               rows := rows t ++ [ mkNote id title content sources now now ] |},
       Returned tt)
  end.

(** The separator [append_to_note] puts between old and new content. *)
Definition NOTE_SEP : pystr := [NL; NL] ++ lit "---" ++ [NL; NL].

(** [SELECT content, sources FROM notes WHERE id = ?] and [fetchone()]. *)
Definition select_note (id : Z) (l : list Note) : option Note :=
  List.find (fun n => note_id n =? id) l.

(** [UPDATE notes SET content = ?, sources = ?, updated_at = CURRENT_TIMESTAMP
    WHERE id = ?]. *)
Definition update_note (id : Z) (content sources : pystr) (now : Z) (n : Note) : Note :=
  if note_id n =? id
  then mkNote (note_id n) (note_title n) content sources (note_created_at n) now
  else n.

(** [append_to_note(note_id, new_content, new_sources)] at time [now]. When
    no row has the id, [fetchone()] is [None] and unpacking it raises a
    [TypeError] before anything is written. *)
Definition append_to_note (id : Z) (new_content new_sources : pystr) (now : Z)
    (db : NotesDb) : NotesDb * outcome unit :=
  match db with
  | None => (db, Raised NO_SUCH_TABLE)
  | Some t =>
      match select_note id (rows t) with
      | None =>
          (db, Raised (OtherException (lit "cannot unpack non-iterable NoneType object")))
      | Some old =>
          let updated_content := note_content old ++ NOTE_SEP ++ new_content in
          let updated_sources := note_sources old ++ lit ", " ++ new_sources in
          (Some {| sequence := sequence t;
                   rows := List.map (update_note id updated_content updated_sources now)
                                    (rows t) |},
           Returned tt)
      end
  end.

(** The order of [ORDER BY updated_at DESC]. *)
Definition newer_first (a b : Note) : Prop := note_updated_at b <= note_updated_at a.

Global Instance newer_first_dec (a b : Note) : Decision (newer_first a b) :=
  Z_le_dec (note_updated_at b) (note_updated_at a).

(** [list_notes()]: all rows, most recently updated first. SQL leaves the
    order of rows with equal [updated_at] open; here they come out as the
    merge sort leaves them. *)
Definition list_notes (db : NotesDb) : outcome (list Note) :=
  match db with
  | None => Raised NO_SUCH_TABLE
  | Some t => Returned (merge_sort newer_first (rows t))
  end.

(** A table as the functions above keep it: ids are positive, pairwise
    distinct and not above the counter. *)
Definition table_ok (t : NotesTable) : Prop :=
  NoDup (List.map note_id (rows t))
  /\ Forall (fun n => 0 < note_id n <= sequence t) (rows t).

(* ===================================================================== *)
(** ** The note export of [export_note_pdf.py] *)
(* ===================================================================== *)

(** The flowables handed to [doc.build]. *)
Inductive Flowable : Type :=
  | Paragraph (body : pystr) (style : pystr)
  | Spacer (width height : Z).

(** [content.split("\n\n")]: the pieces between the occurrences of a blank
    line, scanned from the left without overlap. [cur] is the piece read so
    far. *)
Fixpoint split_paragraphs (s cur : pystr) : list pystr :=
  match s with
  | [] => [cur]
  | c :: s' =>
      match s' with
      | c' :: rest =>
          if ((c =? NL) && (c' =? NL))%N
          then cur :: split_paragraphs rest []
          else split_paragraphs s' (cur ++ [c])
      | [] => split_paragraphs s' (cur ++ [c])
      end
  end.

(** ReportLab's paragraph parser, which [Paragraph(text, style)] runs on
    its text: [None] when the markup parses, otherwise the message of the
    [ValueError] it raises. *)
Class Markup : Type := {
  parse_error : pystr -> option pystr
}.

(** [Paragraph(body, style)]: the flowable, or the parser's exception. *)
Definition new_paragraph `{M : Markup} (body style : pystr) : outcome Flowable :=
  match parse_error body with
  | None => Returned (Paragraph body style)
  | Some msg => Raised (OtherException msg)
  end.

(** The loop [for para in content.split("\n\n")], appending to [elements];
    it stops at the first paragraph the parser refuses. *)
Fixpoint body_loop `{M : Markup} (paras : list pystr) (elements : list Flowable)
    : outcome (list Flowable) :=
  match paras with
  | [] => Returned elements
  | para :: rest =>
      match new_paragraph para (lit "BodyText") with
      | Raised e => Raised e
      | Returned p => body_loop rest (elements ++ [ p; Spacer 1 10 ])
      end
  end.

(** [generate_note_pdf(title, content, sources, output_path)] up to the call
    of [doc.build]: the list [elements] handed to it, or the exception raised
    while a [Paragraph] is built. [generated_on] is
    [datetime.now().strftime('%d %b %Y, %I:%M %p')]. *)
Definition generate_note_pdf `{M : Markup} (title content sources generated_on : pystr)
    : outcome (list Flowable) :=
  match new_paragraph (lit "<b>" ++ title ++ lit "</b>") (lit "Title") with
  | Raised e => Raised e
  | Returned p_title =>
      match body_loop (split_paragraphs content []) [ p_title; Spacer 1 12 ] with
      | Raised e => Raised e
      | Returned elements =>
          match new_paragraph (lit "<b>Sources</b>") (lit "Heading2") with
          | Raised e => Raised e
          | Returned p_heading =>
              match new_paragraph sources (lit "BodyText") with
              | Raised e => Raised e
              | Returned p_sources =>
                  match new_paragraph (lit "<i>Generated on " ++ generated_on ++ lit "</i>")
                                      (lit "Normal") with
                  | Raised e => Raised e
                  | Returned p_generated =>
                      Returned (elements
                                ++ [ Spacer 1 16; p_heading; p_sources; Spacer 1 20;
                                     p_generated ])
                  end
              end
          end
      end
  end.

(** The texts [generate_note_pdf] hands to [Paragraph], in the order in
    which it builds them. *)
Definition paragraph_texts (title content sources generated_on : pystr) : list pystr :=
  (lit "<b>" ++ title ++ lit "</b>") :: split_paragraphs content []
  ++ [ lit "<b>Sources</b>"; sources; lit "<i>Generated on " ++ generated_on ++ lit "</i>" ].

(** The paragraphs of the body, as they appear among the flowables. *)
Definition body_paragraphs (els : list Flowable) : list pystr :=
  flat_map (fun e => match e with
                     | Paragraph body style =>
                         if bool_decide (style = lit "BodyText") then [body] else []
                     | Spacer _ _ => []
                     end) els.

(* ===================================================================== *)
(** ** Notions used in the statements *)
(* ===================================================================== *)

(** [t] is a contiguous piece of [s]. *)
Definition window_of (s t : pystr) : Prop := exists pre suf, s = pre ++ t ++ suf.

(** A string without leading or trailing whitespace. *)
Definition trimmed (s : pystr) : Prop := strip s = s.

(** The text of the diagnostic log. *)
Definition log_text `{B : Backend} (w : World) : pystr :=
  match files w !! LOG_FILE with Some (FText s) => s | _ => [] end.

(** The three paths [process_and_index_faiss] may write for a hash. *)
Definition ingestion_paths `{B : Backend} (file_hash : pystr) : list pystr :=
  [ pending_path file_hash; LOG_FILE; index_path ].

(* ===================================================================== *)
(** ** Further sample data *)
(* ===================================================================== *)



(** A world whose saved store holds one short document. *)
Definition world_with_short_index : @World sample_backend :=
  {| environ := {[ OPENAI_API_KEY := lit "sk-test" ]};
     dirs := {[ FAISS_DIR ]};
     files := {[ index_path :=
                   FIndex (B := sample_backend)
                     [ (tt, mkDocument (lit "  too short  ") ∅) ] ]};
     ctime := lit "Tue Nov  3 12:00:00 2026";
     background_tasks := [] |}.

(** An upload of exactly 200 MiB, read in blocks of 1 MiB. *)
Definition limit_upload : list N := replicate 200 1048576%N.

(** The world after [sample.pdf], one page of 100 letters, was ingested with
    the API key set. *)
Definition world_after_ingestion : @World sample_backend :=
  fst (process_and_index_faiss (lit "./uploads/tmp1.pdf") (lit "sample.pdf") (lit "ab12")
         (world_with_pdf true (lit "./uploads/tmp1.pdf") 100%N)).

(** Opening tags minus closing tags of a text. *)
Fixpoint tag_balance (s : pystr) : Z :=
  match s with
  | [] => 0
  | c :: rest =>
      (if (c =? 60)%N
       then match rest with
            | c' :: _ => if (c' =? 47)%N then -1 else 1
            | [] => 1
            end
       else 0) + tag_balance rest
  end.

(** A stand-in for the paragraph parser: a text parses when every tag it
    opens is closed. *)
Definition sample_markup : Markup :=
  {| parse_error := fun s =>
       if tag_balance s =? 0 then None
       else Some (lit "Parse error: saw </para> instead of expected </b>") |}.

(** A notes table with two notes. *)
Definition sample_table : NotesTable :=
  {| sequence := 2;
     rows := [ mkNote 1 (lit "EDA") (lit "First answer.") (lit "a.pdf") 100 100;
               mkNote 2 (lit "PCA") (lit "Second answer.") (lit "b.pdf") 200 200 ] |}.

(* ===================================================================== *)
(** ** Facts about strings and slices *)
(* ===================================================================== *)

Lemma lstrip_length (s : pystr) : (length (lstrip s) <= length s)%nat.
Proof.
  induction s as [|c s IH]; simpl; [lia|].
  destruct (isspace c); simpl; lia.
Qed.

Lemma rstrip_length (s : pystr) : (length (rstrip s) <= length s)%nat.
Proof.
  unfold rstrip. rewrite length_rev.
  pose proof (lstrip_length (rev s)) as H. rewrite length_rev in H. exact H.
Qed.

Lemma strip_length (s : pystr) : (length (strip s) <= length s)%nat.
Proof.
  unfold strip. pose proof (rstrip_length (lstrip s)). pose proof (lstrip_length s). lia.
Qed.

Lemma lstrip_blank (s : pystr) : blank s = true -> lstrip s = [].
Proof.
  induction s as [|c s IH]; simpl; [reflexivity|].
  intros H. apply andb_prop in H as [Hc Hs]. rewrite Hc. auto.
Qed.

Lemma strip_blank (s : pystr) : blank s = true -> strip s = [].
Proof. intros H. unfold strip. rewrite (lstrip_blank s H). reflexivity. Qed.

Lemma blank_app (s t : pystr) : blank (s ++ t) = blank s && blank t.
Proof. unfold blank. apply forallb_app. Qed.

Lemma blank_drop n (s : pystr) : blank s = true -> blank (drop n s) = true.
Proof.
  revert n. induction s as [|c s IH]; intros [|n] H; simpl; auto.
  simpl in H. apply andb_prop in H as [_ Hs]. auto.
Qed.

Lemma blank_take n (s : pystr) : blank s = true -> blank (take n s) = true.
Proof.
  revert n. induction s as [|c s IH]; intros [|n] H; simpl; auto.
  simpl in H. apply andb_prop in H as [Hc Hs]. rewrite Hc. simpl. auto.
Qed.

Lemma slice_to_length {A} (s : list A) (stop : Z) :
  0 <= stop -> len (slice_to s stop) <= stop.
Proof.
  intros H. unfold len, slice_to, clamp. rewrite length_take.
  destruct (Z.ltb_spec stop 0); lia.
Qed.

Lemma slice_from_shrinks {A} (s : list A) (start : Z) :
  0 < start -> s <> [] -> (length (slice_from s start) < length s)%nat.
Proof.
  intros H Hs. unfold slice_from, clamp. rewrite length_drop.
  destruct s as [|x s]; [congruence|]. simpl length.
  destruct (Z.ltb_spec start 0); lia.
Qed.

Lemma slice_to_all {A} (s : list A) (stop : Z) :
  len s <= stop -> slice_to s stop = s.
Proof.
  intros H. unfold len in H. unfold slice_to, clamp.
  apply take_ge. destruct (Z.ltb_spec stop 0); lia.
Qed.

(* ===================================================================== *)
(** ** The chunking engine: termination and size of the chunks *)
(* ===================================================================== *)

Lemma emit_loop_unfold fuel cs ov buffer bp :
  emit_loop fuel cs ov buffer bp =
  if len buffer >=? cs then
    match fuel with
    | O => ([], None)
    | S fuel' =>
        let '(out, st) := emit_loop fuel' cs ov (slice_from buffer (cs - ov)) ∅ in
        ({| text := strip (slice_to buffer cs); pages := sorted bp |} :: out, st)
    end
  else ([], Some (buffer, bp)).
Proof. destruct fuel; reflexivity. Qed.

(** With a positive window and an overlap below it the inner loop exits: any
    bound above the buffer's length is enough, the chunks do not depend on
    the bound, every chunk fits the window and the buffer left over is
    shorter than the window. *)
Lemma emit_loop_exits cs ov :
  0 < cs -> ov < cs ->
  forall n buffer bp, (length buffer <= n)%nat ->
  exists out b bp',
    (forall fuel, (length buffer < fuel)%nat ->
       emit_loop fuel cs ov buffer bp = (out, Some (b, bp')))
    /\ len b < cs /\ (length b <= length buffer)%nat /\ Forall (within cs) out.
Proof.
  intros Hcs Hov. induction n as [|n IH]; intros buffer bp Hn.
  - exists [], buffer, bp. destruct buffer; [|simpl in Hn; lia].
    split; [|split; [|split]]; auto.
    + intros fuel _. rewrite emit_loop_unfold.
      destruct (Z.geb_spec (len (@nil N)) cs) as [H|H]; [unfold len in H; simpl in H; lia|].
      reflexivity.
  - destruct (Z.geb_spec (len buffer) cs) as [Hge|Hlt].
    + assert (Hne : buffer <> []) by (intros ->; unfold len in Hge; simpl in Hge; lia).
      pose proof (slice_from_shrinks buffer (cs - ov) ltac:(lia) Hne) as Hshr.
      destruct (IH (slice_from buffer (cs - ov)) ∅ ltac:(lia))
        as (out & b & bp' & Hrun & Hb & Hlen & Hout).
      exists ({| text := strip (slice_to buffer cs); pages := sorted bp |} :: out), b, bp'.
      split; [|split; [exact Hb|split; [lia|]]].
      * intros [|fuel] Hf; [lia|]. rewrite emit_loop_unfold.
        destruct (Z.geb_spec (len buffer) cs); [|lia].
        rewrite (Hrun fuel ltac:(lia)). reflexivity.
      * constructor; [|exact Hout]. unfold within; simpl.
        pose proof (strip_length (slice_to buffer cs)).
        pose proof (slice_to_length buffer cs ltac:(lia)). unfold len in *. lia.
    + exists [], buffer, bp. split; [|split; [lia|split; [lia|constructor]]].
      intros fuel _. rewrite emit_loop_unfold.
      destruct (Z.geb_spec (len buffer) cs); [lia|reflexivity].
Qed.

Lemma pages_loop_exits cs ov :
  0 < cs -> ov < cs ->
  forall ps buffer bp, len buffer < cs ->
  exists out,
    (forall fuel, (length buffer + buffer_total ps < fuel)%nat ->
       pages_loop fuel cs ov ps buffer bp = (out, true))
    /\ Forall (within cs) out.
Proof.
  intros Hcs Hov. induction ps as [|[page_num page_text] rest IH]; intros buffer bp Hb.
  - simpl. eexists; split; [intros; reflexivity|].
    destruct (truthy (strip buffer)); constructor; [|constructor].
    unfold within; simpl. pose proof (strip_length buffer). unfold len in *. lia.
  - destruct (emit_loop_exits cs ov Hcs Hov _ (buffer ++ NL :: page_text)
                ({[ page_num ]} ∪ bp) (le_n _))
      as (out & b & bp' & Hrun & Hlt & Hlen & Hout).
    destruct (IH b bp' Hlt) as (more & Hmore & Hfor).
    exists (out ++ more). split; [|apply Forall_app; auto].
    intros fuel Hf. simpl in Hf. rewrite length_app in Hlen; simpl in Hlen.
    simpl. rewrite Hrun by (rewrite length_app; simpl; lia).
    rewrite Hmore by lia. reflexivity.
Qed.

(** The bound used by [chunk_objs] is enough: the generator is exhausted,
    and a larger bound gives the same chunks. *)
Lemma chunk_objs_exhausted (ps : list Page) :
  forall fuel, (buffer_total ps < fuel)%nat ->
    chunks_from_pages fuel ps CHUNK_SIZE OVERLAP = (chunk_objs ps, true).
Proof.
  destruct (pages_loop_exits CHUNK_SIZE OVERLAP ltac:(reflexivity) ltac:(reflexivity)
              ps [] ∅ ltac:(reflexivity)) as (out & Hrun & _).
  intros fuel Hf. unfold chunk_objs, chunks_from_pages.
  rewrite (Hrun (S (buffer_total ps))) by (simpl; lia).
  rewrite (Hrun fuel) by (simpl; lia). reflexivity.
Qed.

(** [list(chunks_from_pages(pages_gen))] is the list [chunk_objs] stands for. *)
Lemma list_chunks_default (ps : list Page) (fuel : nat) :
  (buffer_total ps < fuel)%nat ->
  list_chunks fuel ps CHUNK_SIZE OVERLAP = Some (chunk_objs ps).
Proof.
  intros Hf. unfold list_chunks. by rewrite chunk_objs_exhausted.
Qed.

(** With the overlap equal to the window the slide keeps the whole buffer:
    once the guard holds it holds for ever, whatever the bound. *)
Lemma emit_loop_no_progress (fuel : nat) (chunk_size : Z) (buffer : pystr) (bp : gset Z) :
  chunk_size <= len buffer ->
  snd (emit_loop fuel chunk_size chunk_size buffer bp) = None.
Proof.
  intros Hge. revert bp. induction fuel as [|fuel IH]; intros bp;
    rewrite emit_loop_unfold; destruct (Z.geb_spec (len buffer) chunk_size); try lia.
  - reflexivity.
  - replace (slice_from buffer (chunk_size - chunk_size)) with buffer
      by (rewrite Z.sub_diag; unfold slice_from, clamp; simpl;
          rewrite Z.min_l by lia; reflexivity).
    specialize (IH ∅). destruct (emit_loop fuel chunk_size chunk_size buffer ∅).
    exact IH.
Qed.

(** C1. For every chunk size and overlap with [0 <= overlap < chunk_size]
    and every finite page sequence, [chunks_from_pages] terminates: from some
    iteration bound on the generator is exhausted and yields the same list of
    chunks. The text of every chunk it yields, the final remainder included,
    is at most [chunk_size] characters long. *)
Theorem chunks_from_pages_terminates (ps : list Page) (chunk_size overlap : Z) :
  0 <= overlap -> overlap < chunk_size ->
  exists fuel out,
    (forall fuel', (fuel <= fuel')%nat ->
       chunks_from_pages fuel' ps chunk_size overlap = (out, true))
    /\ Forall (fun c => len (text c) <= chunk_size) out.
Proof.
  intros H0 Hov.
  destruct (pages_loop_exits chunk_size overlap ltac:(lia) Hov ps [] ∅)
    as (out & Hrun & Hfor); [unfold len; simpl; lia|].
  exists (S (buffer_total ps)), out. split; [|exact Hfor].
  intros fuel' Hf. apply Hrun. simpl. lia.
Qed.

Lemma chunks_from_pages_terminates_witness :
  0 <= OVERLAP /\ OVERLAP < CHUNK_SIZE /\
  exists fuel out,
    (forall fuel', (fuel <= fuel')%nat ->
       chunks_from_pages fuel' [(1, letters 1199)] CHUNK_SIZE OVERLAP = (out, true))
    /\ Forall (fun c => len (text c) <= CHUNK_SIZE) out.
Proof.
  split; [|split].
  - unfold OVERLAP. lia.
  - unfold OVERLAP, CHUNK_SIZE. lia.
  - apply (chunks_from_pages_terminates [(1, letters 1199)] CHUNK_SIZE OVERLAP);
      unfold OVERLAP, CHUNK_SIZE; lia.
Defined.

(* ===================================================================== *)
(** ** The chunking engine: page attribution *)
(* ===================================================================== *)

Lemma sorted_elem_of (s : gset Z) (n : Z) : n ∈ sorted s <-> n ∈ s.
Proof.
  unfold sorted. rewrite merge_sort_Permutation. apply elem_of_elements.
Qed.



Lemma sorted_empty : sorted ∅ = [].
Proof. unfold sorted. by rewrite elements_empty. Qed.










(** The schedule at work: the first page fills one window, the second is
    only accumulated, the third fills two windows and leaves a remainder. *)
Lemma chunk_pages_schedule_example :
  emissions 9 [(1, lit "abcdef"); (2, lit "gh"); (3, lit "ijklmnop")] 6 1
  = ([ (1, 1%nat); (2, 0%nat); (3, 2%nat) ], true)
  /\ List.map pages
       (fst (chunks_from_pages 9 [(1, lit "abcdef"); (2, lit "gh"); (3, lit "ijklmnop")] 6 1))
     = [ [1]; [2; 3]; []; [] ].
Proof. split; vm_compute; reflexivity. Qed.


(* ===================================================================== *)
(** ** The chunking engine: short and blank documents *)
(* ===================================================================== *)

Lemma lstrip_nonblank (s : pystr) :
  blank s = false -> exists c t, lstrip s = c :: t /\ isspace c = false.
Proof.
  induction s as [|c s IH]; simpl; [discriminate|].
  destruct (isspace c) eqn:Hc; simpl; [exact IH|]. intros _. by exists c, s.
Qed.

Lemma lstrip_snoc_nonspace (u : pystr) (c : N) :
  isspace c = false -> lstrip (u ++ [c]) <> [].
Proof.
  intros Hc. induction u as [|x u IH]; simpl.
  - rewrite Hc. discriminate.
  - destruct (isspace x); [exact IH|discriminate].
Qed.

Lemma strip_nonblank (s : pystr) : blank s = false -> truthy (strip s) = true.
Proof.
  intros H. destruct (lstrip_nonblank s H) as (c & t & E & Hc).
  unfold strip, rstrip. rewrite E. simpl rev.
  pose proof (lstrip_snoc_nonspace (rev t) c Hc) as Hne.
  destruct (lstrip (rev t ++ [c])) as [|y l] eqn:El; [congruence|].
  simpl. destruct (rev l ++ [y]) eqn:Er; [|reflexivity].
  by destruct (rev l).
Qed.

Lemma blank_joined_pages (ps : list Page) :
  blank (joined_pages ps) = blank_pages ps.
Proof.
  induction ps as [|[n t] ps IH]; [reflexivity|].
  unfold joined_pages in *. simpl flat_map.
  change (NL :: (t ++ flat_map (fun p => NL :: p.2) ps))
    with ([NL] ++ (t ++ flat_map (fun p => NL :: p.2) ps)).
  rewrite !blank_app, IH. reflexivity.
Qed.

(** While the buffer stays below the window the inner loop is never entered:
    the pages are only accumulated and the remainder is yielded once. *)
Lemma pages_loop_short fuel cs ov :
  forall ps buffer bp,
    len (buffer ++ joined_pages ps) < cs ->
    pages_loop fuel cs ov ps buffer bp
    = (if truthy (strip (buffer ++ joined_pages ps))
       then [ {| text := strip (buffer ++ joined_pages ps);
                 pages := sorted (pages_read ps ∪ bp) |} ]
       else [],
       true).
Proof.
  induction ps as [|[page_num page_text] rest IH]; intros buffer bp Hlen.
  - simpl. rewrite app_nil_r. replace (pages_read [] ∪ bp) with bp by set_solver.
    reflexivity.
  - simpl pages_loop. rewrite emit_loop_unfold.
    change (joined_pages ((page_num, page_text) :: rest))
      with ((NL :: page_text) ++ joined_pages rest) in *.
    rewrite app_assoc in Hlen.
    destruct (Z.geb_spec (len (buffer ++ NL :: page_text)) cs) as [Hge|Hlt].
    + unfold len in *. rewrite !length_app in *. simpl in *. lia.
    + rewrite (IH _ _ Hlen). rewrite <- !app_assoc.
      replace (pages_read ((page_num, page_text) :: rest) ∪ bp)
        with (pages_read rest ∪ ({[page_num]} ∪ bp))
        by (unfold pages_read; simpl; set_solver).
      reflexivity.
Qed.

(** C8, as the code has it. For every non-blank page sequence whose buffer,
    each page's text preceded by the one-character line-feed separator, is
    shorter than [chunk_size], [chunks_from_pages] yields exactly one chunk;
    its text is that buffer trimmed and its pages are all the page numbers,
    ascending. No iteration of the inner loop is needed. *)
Theorem short_document_one_chunk (fuel : nat) (ps : list Page) (chunk_size overlap : Z) :
  blank_pages ps = false ->
  len (joined_pages ps) < chunk_size ->
  chunks_from_pages fuel ps chunk_size overlap
  = ([ {| text := strip (joined_pages ps); pages := sorted (pages_read ps) |} ], true).
Proof.
  intros Hnb Hlen. unfold chunks_from_pages.
  rewrite pages_loop_short by exact Hlen. simpl app.
  rewrite strip_nonblank by (rewrite blank_joined_pages; exact Hnb).
  replace (pages_read ps ∪ ∅) with (pages_read ps) by set_solver. reflexivity.
Qed.

Lemma short_document_one_chunk_witness :
  blank_pages [(1, lit "ab "); (2, lit "cd")] = false
  /\ len (joined_pages [(1, lit "ab "); (2, lit "cd")]) < CHUNK_SIZE
  /\ chunks_from_pages 0 [(1, lit "ab "); (2, lit "cd")] CHUNK_SIZE OVERLAP
     = ([ {| text := strip (joined_pages [(1, lit "ab "); (2, lit "cd")]);
             pages := sorted (pages_read [(1, lit "ab "); (2, lit "cd")]) |} ], true).
Proof.
  split; [reflexivity|]. split; [vm_compute; reflexivity|].
  apply (short_document_one_chunk 0 [(1, lit "ab "); (2, lit "cd")] CHUNK_SIZE OVERLAP).
  - reflexivity.
  - vm_compute. reflexivity.
Defined.

(** C8 fails as stated: one page of 1199 letters is shorter than the window
    of 1200, yet with its separator it fills the window and two chunks are
    yielded, neither of which is the whole text. *)
Lemma short_document_counterexample :
  blank_pages [(1, letters 1199)] = false
  /\ len (concat (List.map snd [(1, letters 1199)])) < CHUNK_SIZE
  /\ chunks_from_pages 2 [(1, letters 1199)] CHUNK_SIZE OVERLAP
     = ([ mkChunk (letters 1199) [1]; mkChunk (letters 200) [] ], true).
Proof. vm_compute. repeat split; reflexivity. Qed.

(** Blank pages yield no chunk as long as the buffer stays below the
    window. *)
Lemma blank_short_no_chunks (fuel : nat) (ps : list Page) (chunk_size overlap : Z) :
  blank_pages ps = true ->
  len (joined_pages ps) < chunk_size ->
  chunks_from_pages fuel ps chunk_size overlap = ([], true).
Proof.
  intros Hb Hlen. unfold chunks_from_pages.
  rewrite pages_loop_short by exact Hlen. simpl app.
  rewrite strip_blank by (rewrite blank_joined_pages; exact Hb). reflexivity.
Qed.

(** C7 fails on the code: a single page of 1199 spaces is blank, yet with the
    default window the inner loop yields a chunk with empty text for it; only
    the remainder is tested for blankness before it is yielded. The same
    happens for 1200 pages of empty text. *)
Theorem blank_pages_yield_chunk :
  blank_pages [(1, spaces 1199)] = true
  /\ chunks_from_pages 1 [(1, spaces 1199)] CHUNK_SIZE OVERLAP
     = ([ mkChunk [] [1] ], true)
  /\ chunk_objs [(1, spaces 1199)] = [ mkChunk [] [1] ]
  /\ blank_pages (scanned_pages 1200) = true
  /\ List.map text (chunk_objs (scanned_pages 1200)) = [ [] ].
Proof. vm_compute. repeat split; reflexivity. Qed.

(* ===================================================================== *)
(** ** Ingestion: [process_and_index_faiss] *)
(* ===================================================================== *)

Section PipelineFacts.

Context `{B : Backend}.

Lemma pending_path_eq (file_hash : pystr) :
  pending_path file_hash = lit "./faiss_store/pending/pending_" ++ file_hash ++ lit ".json".
Proof. reflexivity. Qed.


Lemma pending_path_not_log (file_hash : pystr) : LOG_FILE <> pending_path file_hash.
Proof. rewrite pending_path_eq. discriminate. Qed.



(** C9. When chunking yields nothing, [process_and_index_faiss] raises a
    [RuntimeError] and leaves the world as it was: no pending file is
    written, the index is not written, nothing is logged. *)
Theorem no_chunks_is_fatal
    (pdf_path fname file_hash : pystr) (w : World) (ps : list Page) :
  extract_text_page_by_page w pdf_path = Returned ps ->
  chunk_objs ps = [] ->
  process_and_index_faiss pdf_path fname file_hash w
  = (w, Raised (RuntimeError
         (lit "No chunks extracted from PDF; check the PDF content / OCR."))).
Proof.
  intros Hex Hch. unfold process_and_index_faiss. rewrite Hex, Hch. reflexivity.
Qed.

Lemma zip_with_map_same {X Y Z' T} (f : Y -> Z' -> T) (g : X -> Y) (h : X -> Z')
    (l : list X) :
  zip_with f (List.map g l) (List.map h l) = List.map (fun x => f (g x) (h x)) l.
Proof. induction l as [|x l IH]; simpl; [reflexivity|]. by rewrite IH. Qed.

(** A store built by [from_texts] from the chunks [l] of a file holds one
    document per embedded chunk and nothing else. *)
Lemma from_texts_documents (fname : pystr) (l : list Chunk)
    (store : list (Vec * Document)) :
  from_texts (List.map text l) (List.map (chunk_metadata fname) l) = Returned store ->
  Forall (fun d => exists c, c ∈ l /\ d = mkDocument (text c) (chunk_metadata fname c))
         (List.map snd store).
Proof.
  unfold from_texts. destruct (embed_documents _) as [err|vectors]; [discriminate|].
  intros [= <-]. rewrite zip_with_map_same.
  apply Forall_forall. intros d Hd.
  apply list_elem_of_In, in_map_iff in Hd as [[v d'] [<- Hin]]. simpl.
  apply list_elem_of_In, elem_of_zip_r, list_elem_of_In, in_map_iff in Hin
    as [c' [<- Hc']].
  exists c'. split; [by apply list_elem_of_In|reflexivity].
Qed.

(** C6, as the code has it. On every successful ingestion the index written
    by [process_and_index_faiss] is the store [FAISS.from_texts] builds from
    the chunks of the newly ingested document alone; it replaces whatever
    store was saved before, so afterwards the index on disk holds only
    documents that are chunks of the new document. *)
Theorem index_holds_new_document_only
    (pdf_path fname file_hash : pystr) (w w' : World) (n : Z) (dir : pystr) :
  process_and_index_faiss pdf_path fname file_hash w = (w', Returned (Indexed n dir)) ->
  exists ps store,
    extract_text_page_by_page w pdf_path = Returned ps
    /\ from_texts (List.map text (chunk_objs ps))
                  (List.map (chunk_metadata fname) (chunk_objs ps)) = Returned store
    /\ load_local w' = Returned store
    /\ Forall (fun d => exists c, c ∈ chunk_objs ps
                        /\ d = mkDocument (text c) (chunk_metadata fname c))
              (List.map snd store).
Proof.
  unfold process_and_index_faiss.
  destruct (extract_text_page_by_page w pdf_path) as [ps|e] eqn:Hex; [|discriminate].
  destruct (chunk_objs ps) as [|c cs] eqn:Hch; [discriminate|].
  destruct (init_embedder w); [|discriminate].
  destruct (from_texts _ _) as [store|e] eqn:Hft; [|discriminate].
  intros [= <- <- <-]. exists ps, store. rewrite Hch.
  split; [reflexivity|]. split; [exact Hft|]. split.
  - unfold load_local, save_local. simpl. by rewrite lookup_insert_eq.
  - by apply from_texts_documents.
Qed.

(* ===================================================================== *)
(** ** Upload: [upload_pdf] *)
(* ===================================================================== *)

(** Once the running count passes [MAX_BYTES] the read loop removes the
    temporary file and raises the 413. *)
Lemma receive_oversized (temp_path : pystr) :
  forall (blocks : list Bytes) (size : Z) (w : World),
    Forall (fun b => blen b <> 0%N) blocks ->
    size <= MAX_BYTES -> MAX_BYTES < size + total_bytes blocks ->
    exists w',
      receive blocks size temp_path w
      = (w', Raised (HTTPException 413 (lit "File too large.")))
      /\ files w' !! temp_path = None.
Proof.
  induction blocks as [|chunk rest IH]; intros size w Hnz Hle Hgt; simpl in *; [lia|].
  inversion Hnz as [|? ? Hc Hrest]; subst.
  destruct (N.eqb_spec (blen chunk) 0) as [E|_]; [contradiction|].
  destruct (Z.gtb_spec (size + Z.of_N (blen chunk)) MAX_BYTES) as [Hbig|Hsmall].
  - eexists. split; [reflexivity|]. unfold os_remove. simpl. apply lookup_delete_eq.
  - apply IH; [exact Hrest|lia|lia].
Qed.

(** C4 fails on the code. For every upload with a [.pdf] name whose byte
    count exceeds [MAX_BYTES], [upload_pdf] removes the temporary file, but
    the 413 raised inside the [try:] block is caught by its own
    [except Exception] handler and what the caller receives is the generic
    500, with the 413 only in its detail text. *)
Theorem oversized_upload_reports_500
    (fname : pystr) (blocks : list Bytes) (background : bool)
    (temp_path : pystr) (w : World) :
  endswith (List.map lower_char fname) (lit ".pdf") = true ->
  Forall (fun b => blen b <> 0%N) blocks ->
  MAX_BYTES < total_bytes blocks ->
  exists w',
    upload_pdf fname blocks background temp_path w
    = (w', Raised (HTTPException 500 (lit "413: File too large.")))
    /\ files w' !! temp_path = None.
Proof.
  intros Hpdf Hnz Hbig. unfold upload_pdf, upload_try. rewrite Hpdf. simpl negb. cbv iota.
  destruct (receive_oversized temp_path blocks 0
              (with_files w (<[temp_path:=FBytes []]> (files w))) Hnz
              ltac:(discriminate) ltac:(lia)) as (w1 & -> & Hgone).
  eexists. split; [reflexivity|].
  destruct (path_exists w1 temp_path); [|exact Hgone].
  unfold os_remove. simpl. apply lookup_delete_eq.
Qed.

(* ===================================================================== *)
(** ** Retrieval: [answer_question] *)
(* ===================================================================== *)

(** The loop over the retrieved documents appends, for the survivors in
    order, the trimmed text to the context and one record to the sources. *)
Lemma filter_docs_spec (docs : list Document) :
  forall context_chunks sources,
    filter_docs docs context_chunks sources
    = (context_chunks ++ List.map (fun d => strip (page_content d)) (List.filter survives docs),
       sources ++ List.map source_of (List.filter survives docs)).
Proof.
  induction docs as [|d docs IH]; intros cc ss; simpl.
  - by rewrite !app_nil_r.
  - assert (Hs : (len (strip (page_content d)) <? 80) = negb (survives d))
      by (unfold survives; by rewrite negb_involutive).
    rewrite Hs. destruct (survives d); simpl.
    + rewrite IH, <- !app_assoc. reflexivity.
    + apply IH.
Qed.

(** The metadata written at ingestion has no ["chunk"] entry: the page
    numbers are stored under ["pages"]. *)
Lemma chunk_metadata_lookup (fname : pystr) (c : Chunk) (default : pyval) :
  dict_get (chunk_metadata fname c) (lit "chunk") default = default
  /\ dict_get (chunk_metadata fname c) (lit "pages") default = VInts (pages c)
  /\ dict_get (chunk_metadata fname c) (lit "source") default = VStr fname.
Proof.
  unfold dict_get, chunk_metadata. split; [|split].
  - rewrite !lookup_insert_ne by discriminate. by rewrite lookup_empty.
  - rewrite lookup_insert_ne by discriminate. by rewrite lookup_insert_eq.
  - by rewrite lookup_insert_eq.
Qed.

(** The source record of a document indexed by [process_and_index_faiss]
    names the file, but its ["chunk"] entry is the empty string. *)
Lemma source_of_indexed_chunk (fname : pystr) (c : Chunk) :
  source_of (mkDocument (text c) (chunk_metadata fname c))
  = {| src_source := VStr fname; src_chunk := VStr [];
       src_snippet := slice_to (strip (text c)) 300 |}.
Proof.
  unfold source_of. simpl.
  destruct (chunk_metadata_lookup fname c (VStr [])) as (-> & _ & _).
  destruct (chunk_metadata_lookup fname c (VStr (lit "unknown"))) as (_ & _ & ->).
  reflexivity.
Qed.

(** With a store that loads, the answer's source list is the list of records
    of the surviving documents in retrieval order, and the context handed to
    the language model is the join of exactly their trimmed texts. *)
Lemma answer_question_sources (question : pystr) (w : World)
    (db : list (Vec * Document)) :
  load_retriever w = Returned (Some db) ->
  let survivors := List.filter survives (similarity_search db 6 question) in
  survivors <> [] ->
  answer_question question w
  = Returned
      (strip (llm_invoke
         (prompt_of (join CONTEXT_SEP (List.map (fun d => strip (page_content d)) survivors))
                    question)),
       List.map source_of survivors).
Proof.
  intros Hload. cbv zeta. unfold answer_question. rewrite Hload.
  generalize (similarity_search db 6 question). intros docs Hne.
  destruct docs as [|d docs]; [by destruct Hne|].
  rewrite filter_docs_spec, !app_nil_l.
  destruct (List.filter survives (d :: docs)) as [|s l]; [congruence|]. reflexivity.
Qed.

(** C10. With the index directory present and [OPENAI_API_KEY] unset or
    empty, [answer_question] raises a [RuntimeError]; without the directory
    it returns the fixed "No documents indexed yet." answer with no sources;
    and that result is returned in no other case. *)
Theorem answer_question_needs_key (question : pystr) (w : World) :
  (isdir w FAISS_DIR = true -> getenv_truthy w OPENAI_API_KEY = false ->
   answer_question question w = Raised (RuntimeError (lit "OPENAI_API_KEY not set")))
  /\ (isdir w FAISS_DIR = false ->
      answer_question question w = Returned (NO_DOCUMENTS, []))
  /\ (answer_question question w = Returned (NO_DOCUMENTS, []) ->
      isdir w FAISS_DIR = false).
Proof.
  unfold answer_question, load_retriever. split; [|split].
  - intros -> ->. reflexivity.
  - intros ->. reflexivity.
  - destruct (isdir w FAISS_DIR); [|reflexivity]. simpl negb. cbv iota.
    destruct (getenv_truthy w OPENAI_API_KEY); simpl negb; cbv iota; [|discriminate].
    destruct (load_local w) as [db|e]; [|discriminate].
    destruct (similarity_search db 6 question) as [|d docs]; [discriminate|].
    rewrite filter_docs_spec, !app_nil_l.
    destruct (List.filter survives (d :: docs)) as [|s l]; simpl; discriminate.
Qed.

End PipelineFacts.

(* ===================================================================== *)
(** ** The pipeline on sample data *)
(* ===================================================================== *)


Lemma no_chunks_is_fatal_witness :
  let w := world_with_pdf true (lit "./uploads/tmp1.pdf") 0%N in
  extract_text_page_by_page w (lit "./uploads/tmp1.pdf") = Returned [(1, [])]
  /\ chunk_objs [(1, [])] = []
  /\ process_and_index_faiss (lit "./uploads/tmp1.pdf") (lit "t.pdf") (lit "ab12") w
     = (w, Raised (RuntimeError
            (lit "No chunks extracted from PDF; check the PDF content / OCR."))).
Proof.
  assert (H1 : extract_text_page_by_page
                 (world_with_pdf true (lit "./uploads/tmp1.pdf") 0%N)
                 (lit "./uploads/tmp1.pdf") = Returned [(1, [])])
    by (vm_compute; reflexivity).
  assert (H2 : chunk_objs [(1, [])] = []) by (vm_compute; reflexivity).
  cbv zeta. split; [exact H1|]. split; [exact H2|].
  exact (no_chunks_is_fatal (lit "./uploads/tmp1.pdf") (lit "t.pdf") (lit "ab12") _ _ H1 H2).
Defined.

(** C6 fails as stated: after [a.pdf] and then [b.pdf] are ingested, the
    index on disk holds the chunk of [b.pdf] only; the chunk of [a.pdf],
    indexed by the first ingestion, is gone. *)
Lemma index_overwritten_counterexample :
  let doc_a := mkDocument (letters 100)
                 (chunk_metadata (lit "a.pdf") (mkChunk (letters 100) [1])) in
  let doc_b := mkDocument (letters 90)
                 (chunk_metadata (lit "b.pdf") (mkChunk (letters 90) [1])) in
  let w0 := world_with_two_pdfs (lit "./uploads/a.pdf") 100%N (lit "./uploads/b.pdf") 90%N in
  let run_a := process_and_index_faiss (lit "./uploads/a.pdf") (lit "a.pdf") (lit "aa") w0 in
  let run_b := process_and_index_faiss (lit "./uploads/b.pdf") (lit "b.pdf") (lit "bb")
                 (fst run_a) in
  snd run_a = Returned (Indexed 1 FAISS_DIR)
  /\ load_local (fst run_a) = Returned [(tt, doc_a)]
  /\ snd run_b = Returned (Indexed 1 FAISS_DIR)
  /\ load_local (fst run_b) = Returned [(tt, doc_b)]
  /\ ~ In doc_a (List.map snd [(tt, doc_b)]).
Proof.
  cbv zeta. split; [vm_compute; reflexivity|]. split; [vm_compute; reflexivity|].
  split; [vm_compute; reflexivity|]. split; [vm_compute; reflexivity|].
  simpl. intros [H|[]]. apply (f_equal (fun d => length (page_content d))) in H.
  vm_compute in H. discriminate H.
Qed.

Lemma index_holds_new_document_only_witness :
  let w0 := world_with_pdf true (lit "./uploads/tmp1.pdf") 100%N in
  exists w',
    process_and_index_faiss (lit "./uploads/tmp1.pdf") (lit "t.pdf") (lit "ab12") w0
    = (w', Returned (Indexed 1 FAISS_DIR))
    /\ exists store,
         load_local w' = Returned store
         /\ Forall (fun d => exists c, c ∈ chunk_objs [(1, letters 100)]
                             /\ d = mkDocument (text c) (chunk_metadata (lit "t.pdf") c))
                   (List.map snd store).
Proof.
  cbv zeta.
  exists (fst (process_and_index_faiss (lit "./uploads/tmp1.pdf") (lit "t.pdf") (lit "ab12")
                 (world_with_pdf true (lit "./uploads/tmp1.pdf") 100%N))).
  assert (Hrun : process_and_index_faiss (lit "./uploads/tmp1.pdf") (lit "t.pdf") (lit "ab12")
                   (world_with_pdf true (lit "./uploads/tmp1.pdf") 100%N)
                 = (fst (process_and_index_faiss (lit "./uploads/tmp1.pdf") (lit "t.pdf")
                           (lit "ab12") (world_with_pdf true (lit "./uploads/tmp1.pdf") 100%N)),
                    Returned (Indexed 1 FAISS_DIR)))
    by (vm_compute; reflexivity).
  split; [exact Hrun|].
  destruct (index_holds_new_document_only _ _ _ _ _ _ _ Hrun)
    as (ps & store & Hex & _ & Hload & Hall).
  assert (Hps : ps = [(1, letters 100)]).
  { assert (E : extract_text_page_by_page
                  (world_with_pdf true (lit "./uploads/tmp1.pdf") 100%N)
                  (lit "./uploads/tmp1.pdf") = Returned [(1, letters 100)])
      by (vm_compute; reflexivity).
    rewrite E in Hex. by injection Hex. }
  subst ps. exists store. split; [exact Hload|exact Hall].
Defined.

Lemma oversized_upload_reports_500_witness :
  endswith (List.map lower_char (lit "Big.PDF")) (lit ".pdf") = true
  /\ MAX_BYTES < total_bytes (B := sample_backend) oversized_upload
  /\ exists w',
       upload_pdf (B := sample_backend) (lit "Big.PDF") oversized_upload false
                  (lit "./uploads/tmp1.pdf") (empty_world true)
       = (w', Raised (HTTPException 500 (lit "413: File too large.")))
       /\ files w' !! lit "./uploads/tmp1.pdf" = None.
Proof.
  assert (H1 : endswith (List.map lower_char (lit "Big.PDF")) (lit ".pdf") = true)
    by (vm_compute; reflexivity).
  assert (H2 : Forall (fun b => blen (Backend := sample_backend) b <> 0%N) oversized_upload)
    by (apply Forall_app; split;
        [apply Forall_replicate; discriminate|repeat constructor; discriminate]).
  assert (H3 : MAX_BYTES < total_bytes (B := sample_backend) oversized_upload)
    by (vm_compute; reflexivity).
  split; [exact H1|]. split; [exact H3|].
  exact (oversized_upload_reports_500 (B := sample_backend)
           (lit "Big.PDF") oversized_upload false
           (lit "./uploads/tmp1.pdf") (empty_world true) H1 H2 H3).
Defined.

(** C5 fails on the code. A file indexed by [process_and_index_faiss] has its
    page numbers stored under the metadata key ["pages"], while
    [answer_question] reads the key ["chunk"]: the source record returned for
    the page-1 chunk names the file and quotes the text, but its page/chunk
    reference is the empty string. *)
Theorem indexed_source_lacks_page_reference :
  let w := fst (process_and_index_faiss (lit "./uploads/tmp1.pdf") (lit "t.pdf")
                  (lit "ab12") (world_with_pdf true (lit "./uploads/tmp1.pdf") 100%N)) in
  load_local w
  = Returned [ (tt, mkDocument (letters 100)
                      (<[ lit "source" := VStr (lit "t.pdf") ]>
                         (<[ lit "pages" := VInts [1] ]> ∅))) ]
  /\ answer_question (lit "What is on page 1?") w
     = Returned (lit "An answer.",
                 [ {| src_source := VStr (lit "t.pdf"); src_chunk := VStr [];
                      src_snippet := letters 100 |} ]).
Proof. cbv zeta. split; vm_compute; reflexivity. Qed.

Lemma answer_question_needs_key_witness :
  isdir world_without_key FAISS_DIR = true
  /\ getenv_truthy world_without_key OPENAI_API_KEY = false
  /\ answer_question (lit "What is on page 1?") world_without_key
     = Raised (RuntimeError (lit "OPENAI_API_KEY not set")).
Proof.
  assert (H1 : isdir world_without_key FAISS_DIR = true) by (vm_compute; reflexivity).
  assert (H2 : getenv_truthy world_without_key OPENAI_API_KEY = false)
    by (vm_compute; reflexivity).
  split; [exact H1|]. split; [exact H2|].
  exact (proj1 (answer_question_needs_key (lit "What is on page 1?") world_without_key) H1 H2).
Defined.

(* ===================================================================== *)
(** ** The chunking engine: what the chunks contain *)
(* ===================================================================== *)

Lemma window_of_refl (s : pystr) : window_of s s.
Proof. exists [], []. by rewrite app_nil_r. Qed.

Lemma window_of_trans (s t u : pystr) : window_of s t -> window_of t u -> window_of s u.
Proof.
  intros (p1 & s1 & ->) (p2 & s2 & ->). exists (p1 ++ p2), (s2 ++ s1).
  by rewrite <- !app_assoc.
Qed.

Lemma window_of_app (pre suf s t : pystr) : window_of s t -> window_of (pre ++ s ++ suf) t.
Proof.
  intros (p & q & ->). exists (pre ++ p), (q ++ suf). by rewrite <- !app_assoc.
Qed.

Lemma lstrip_suffix (s : pystr) : exists pre, s = pre ++ lstrip s.
Proof.
  induction s as [|c s [pre IH]]; [by exists []|]. simpl.
  destruct (isspace c); [|by exists []].
  exists (c :: pre). simpl. by rewrite <- IH.
Qed.

Lemma rstrip_prefix (s : pystr) : exists suf, s = rstrip s ++ suf.
Proof.
  destruct (lstrip_suffix (rev s)) as [pre H]. exists (rev pre). unfold rstrip.
  rewrite <- rev_app_distr, <- H. by rewrite rev_involutive.
Qed.

Lemma strip_window (s : pystr) : window_of s (strip s).
Proof.
  destruct (lstrip_suffix s) as [pre H1]. destruct (rstrip_prefix (lstrip s)) as [suf H2].
  exists pre, suf. unfold strip. by rewrite <- H2.
Qed.

Lemma slice_to_window (s : pystr) (stop : Z) : window_of s (strip (slice_to s stop)).
Proof.
  apply window_of_trans with (slice_to s stop); [|apply strip_window].
  exists [], (drop (clamp (length s) stop) s). unfold slice_to. simpl.
  by rewrite take_drop.
Qed.

Lemma slice_from_suffix (s : pystr) (start : Z) : exists pre, s = pre ++ slice_from s start.
Proof. exists (take (clamp (length s) start) s). unfold slice_from. by rewrite take_drop. Qed.

(** The inner loop cuts its chunks out of the buffer, and leaves an end
    piece of the buffer. *)
Lemma emit_loop_windows fuel cs ov :
  forall buffer bp out st,
    emit_loop fuel cs ov buffer bp = (out, st) ->
    Forall (fun c => window_of buffer (text c)) out
    /\ match st with
       | Some (b, _) => exists pre, buffer = pre ++ b
       | None => True
       end.
Proof.
  induction fuel as [|fuel IH]; intros buffer bp out st; rewrite emit_loop_unfold;
    destruct (len buffer >=? cs).
  - intros [= <- <-]. split; [constructor|exact I].
  - intros [= <- <-]. split; [constructor|by exists []].
  - destruct (emit_loop fuel cs ov (slice_from buffer (cs - ov)) ∅) as [out' st'] eqn:E.
    intros [= <- <-]. destruct (IH _ _ _ _ E) as (Hall & Hst).
    destruct (slice_from_suffix buffer (cs - ov)) as [pre Hpre]. split.
    + constructor; [apply slice_to_window|].
      eapply Forall_impl; [exact Hall|]. intros c Hc. simpl in Hc.
      rewrite Hpre at 1. rewrite <- (app_nil_r (slice_from buffer (cs - ov))).
      by apply window_of_app.
    + destruct st' as [[b bp']|]; [|exact I]. destruct Hst as [pre' Hb].
      exists (pre ++ pre'). rewrite <- app_assoc, <- Hb. exact Hpre.
  - intros [= <- <-]. split; [constructor|by exists []].
Qed.

Lemma pages_loop_windows fuel cs ov :
  forall ps buffer bp pre,
    Forall (fun c => window_of (pre ++ buffer ++ joined_pages ps) (text c))
           (fst (pages_loop fuel cs ov ps buffer bp)).
Proof.
  induction ps as [|[page_num page_text] rest IH]; intros buffer bp pre; simpl.
  - destruct (truthy (strip buffer)); constructor; [|constructor]. simpl.
    change (pre ++ buffer ++ joined_pages []) with (pre ++ buffer ++ []).
    apply window_of_app, strip_window.
  - change (joined_pages ((page_num, page_text) :: rest))
      with ((NL :: page_text) ++ joined_pages rest).
    destruct (emit_loop fuel cs ov (buffer ++ NL :: page_text) ({[page_num]} ∪ bp))
      as [out st] eqn:E.
    destruct (emit_loop_windows _ _ _ _ _ _ _ E) as (Hall & Hst).
    assert (Hout : Forall (fun c => window_of
                     (pre ++ buffer ++ (NL :: page_text) ++ joined_pages rest) (text c)) out).
    { eapply Forall_impl; [exact Hall|]. intros c Hc. simpl in Hc.
      rewrite (app_assoc buffer). by apply window_of_app. }
    destruct st as [[b bp']|]; [|exact Hout].
    destruct Hst as [pre' Hb].
    specialize (IH b bp' (pre ++ pre')).
    assert (Heq : pre ++ buffer ++ (NL :: page_text) ++ joined_pages rest
                  = (pre ++ pre') ++ b ++ joined_pages rest)
      by (rewrite (app_assoc buffer), Hb, <- !app_assoc; reflexivity).
    destruct (pages_loop fuel cs ov rest b bp') as [more fin]. cbn [fst] in *.
    apply Forall_app. split; [exact Hout|]. rewrite <- Heq in IH. exact IH.
Qed.

(** Every chunk is cut out of the document: its text is a contiguous piece of
    the page texts joined with a line feed before each page. This holds for
    every window size and overlap, and for the chunks yielded within any
    iteration bound. *)
Theorem chunk_text_is_window (fuel : nat) (ps : list Page) (chunk_size overlap : Z) :
  Forall (fun c => window_of (joined_pages ps) (text c))
         (fst (chunks_from_pages fuel ps chunk_size overlap)).
Proof.
  unfold chunks_from_pages. exact (pages_loop_windows fuel chunk_size overlap ps [] ∅ []).
Qed.

Lemma lstrip_idem (s : pystr) : lstrip (lstrip s) = lstrip s.
Proof.
  induction s as [|c s IH]; [reflexivity|]. simpl.
  destruct (isspace c) eqn:Hc; [exact IH|]. simpl. by rewrite Hc.
Qed.

Lemma lstrip_snoc (u : pystr) (c : N) :
  isspace c = false -> lstrip (u ++ [c]) = lstrip u ++ [c].
Proof.
  intros Hc. induction u as [|x u IH]; simpl; [by rewrite Hc|].
  destruct (isspace x); [exact IH|reflexivity].
Qed.

Lemma rstrip_cons (c : N) (t : pystr) : isspace c = false -> rstrip (c :: t) = c :: rstrip t.
Proof.
  intros Hc. unfold rstrip. simpl rev. rewrite lstrip_snoc by exact Hc.
  by rewrite rev_app_distr.
Qed.

Lemma rstrip_idem (s : pystr) : rstrip (rstrip s) = rstrip s.
Proof. unfold rstrip. by rewrite rev_involutive, lstrip_idem. Qed.

(** Trimming twice changes nothing: [strip] leaves no whitespace at either
    end. *)
Lemma strip_trimmed (s : pystr) : trimmed (strip s).
Proof.
  unfold trimmed, strip. destruct (lstrip s) as [|c t] eqn:E; [reflexivity|].
  assert (Hc : isspace c = false).
  { clear -E. induction s as [|x s IH]; simpl in E; [discriminate|].
    destruct (isspace x) eqn:Hx; [auto|]. by injection E as -> _. }
  rewrite rstrip_cons by exact Hc.
  assert (Hl : lstrip (c :: rstrip t) = c :: rstrip t) by (simpl; by rewrite Hc).
  rewrite Hl, rstrip_cons by exact Hc. f_equal. apply rstrip_idem.
Qed.

Lemma emit_loop_trimmed fuel cs ov :
  forall buffer bp, Forall (fun c => trimmed (text c)) (fst (emit_loop fuel cs ov buffer bp)).
Proof.
  induction fuel as [|fuel IH]; intros buffer bp; rewrite emit_loop_unfold;
    destruct (len buffer >=? cs); simpl; try constructor.
  specialize (IH (slice_from buffer (cs - ov)) ∅).
  destruct (emit_loop fuel cs ov (slice_from buffer (cs - ov)) ∅) as [out st].
  simpl in *. constructor; [apply strip_trimmed|exact IH].
Qed.

(** Every chunk's text is trimmed: it neither starts nor ends with
    whitespace. *)
Theorem chunk_text_trimmed (fuel : nat) (ps : list Page) (chunk_size overlap : Z) :
  Forall (fun c => trimmed (text c)) (fst (chunks_from_pages fuel ps chunk_size overlap)).
Proof.
  unfold chunks_from_pages. generalize (@nil N) (∅ : gset Z).
  induction ps as [|[page_num page_text] rest IH]; intros buffer bp; simpl.
  - destruct (truthy (strip buffer)); constructor; [apply strip_trimmed|constructor].
  - pose proof (emit_loop_trimmed fuel chunk_size overlap (buffer ++ NL :: page_text)
                  ({[page_num]} ∪ bp)) as Hout.
    destruct (emit_loop fuel chunk_size overlap (buffer ++ NL :: page_text)
                ({[page_num]} ∪ bp)) as [out [[b bp']|]]; simpl in *; [|exact Hout].
    specialize (IH b bp').
    destruct (pages_loop fuel chunk_size overlap rest b bp') as [more fin].
    apply Forall_app. split; [exact Hout|exact IH].
Qed.

(** A trimmed string has no whitespace at its ends. *)
Lemma trimmed_ends (s : pystr) :
  trimmed s ->
  (forall c t, s = c :: t -> isspace c = false)
  /\ (forall u c, s = u ++ [c] -> isspace c = false).
Proof.
  unfold trimmed. intros Hs. split.
  - intros c t ->. destruct (isspace c) eqn:Hc; [|reflexivity]. exfalso.
    unfold strip in Hs. simpl in Hs. rewrite Hc in Hs.
    pose proof (rstrip_length (lstrip t)). pose proof (lstrip_length t).
    rewrite Hs in *. simpl in *. lia.
  - intros u c ->. destruct (isspace c) eqn:Hc; [|reflexivity]. exfalso.
    unfold strip in Hs. destruct (lstrip_suffix (u ++ [c])) as [pre Hpre].
    destruct (lstrip (u ++ [c])) as [|x l] eqn:El using rev_ind.
    + unfold rstrip in Hs. simpl in Hs. by destruct u.
    + clear IHl. rewrite app_assoc in Hpre. apply app_inj_tail in Hpre as [Hu ->].
      assert (Hr : rstrip (l ++ [x]) = rstrip l).
      { unfold rstrip. rewrite rev_app_distr. simpl. by rewrite Hc. }
      rewrite Hr in Hs. pose proof (rstrip_length l) as Hlen.
      rewrite Hs, Hu, !length_app in Hlen. simpl in Hlen. lia.
Qed.

(* ===================================================================== *)
(** ** The chunking engine: configurations that never finish *)
(* ===================================================================== *)

Lemma emit_loop_unbounded_nonpositive (fuel : nat) (cs ov : Z) :
  cs <= 0 ->
  forall buffer bp,
    snd (emit_loop fuel cs ov buffer bp) = None
    /\ length (fst (emit_loop fuel cs ov buffer bp)) = fuel.
Proof.
  intros Hcs. induction fuel as [|fuel IH]; intros buffer bp; rewrite emit_loop_unfold;
    (destruct (Z.geb_spec (len buffer) cs) as [_|H]; [|unfold len in H; lia]).
  - split; reflexivity.
  - specialize (IH (slice_from buffer (cs - ov)) ∅).
    destruct (emit_loop fuel cs ov (slice_from buffer (cs - ov)) ∅) as [out st].
    simpl in *. destruct IH as [-> ->]. split; reflexivity.
Qed.

Lemma emit_loop_unbounded_full_overlap (fuel : nat) (cs : Z) (buffer : pystr) :
  cs <= len buffer ->
  forall bp, length (fst (emit_loop fuel cs cs buffer bp)) = fuel.
Proof.
  intros Hge. induction fuel as [|fuel IH]; intros bp; rewrite emit_loop_unfold;
    (destruct (Z.geb_spec (len buffer) cs); [|lia]).
  - reflexivity.
  - replace (slice_from buffer (cs - cs)) with buffer
      by (rewrite Z.sub_diag; unfold slice_from, clamp; simpl;
          rewrite Z.min_l by lia; reflexivity).
    specialize (IH ∅). destruct (emit_loop fuel cs cs buffer ∅) as [out st].
    simpl in *. by rewrite IH.
Qed.

(** With the overlap equal to the window, a first page that fills the window
    (its text and the separator reach [chunk_size]) stops the chunker for
    good: whatever the iteration bound, the generator is not exhausted and
    has yielded as many chunks as the bound allows. *)
Theorem full_overlap_never_finishes
    (fuel : nat) (page_num : Z) (page_text : pystr) (rest : list Page) (chunk_size : Z) :
  chunk_size <= len page_text + 1 ->
  snd (chunks_from_pages fuel ((page_num, page_text) :: rest) chunk_size chunk_size) = false
  /\ length (fst (chunks_from_pages fuel ((page_num, page_text) :: rest)
                    chunk_size chunk_size)) = fuel.
Proof.
  intros Hge. unfold chunks_from_pages. simpl.
  assert (Hlen : chunk_size <= len (NL :: page_text))
    by (unfold len in *; simpl length; lia).
  pose proof (emit_loop_no_progress fuel chunk_size (NL :: page_text) ({[page_num]} ∪ ∅) Hlen)
    as Hst.
  pose proof (emit_loop_unbounded_full_overlap fuel chunk_size (NL :: page_text) Hlen
                ({[page_num]} ∪ ∅)) as Hn.
  destruct (emit_loop fuel chunk_size chunk_size (NL :: page_text) ({[page_num]} ∪ ∅))
    as [out st]. simpl in *. subst st. split; [reflexivity|exact Hn].
Qed.

Lemma full_overlap_never_finishes_witness :
  4 <= len (lit "abcdef") + 1
  /\ snd (chunks_from_pages 7 [(1, lit "abcdef")] 4 4) = false
  /\ length (fst (chunks_from_pages 7 [(1, lit "abcdef")] 4 4)) = 7%nat.
Proof.
  split; [vm_compute; discriminate|].
  apply (full_overlap_never_finishes 7 1 (lit "abcdef") [] 4). vm_compute. discriminate.
Defined.

(** With a window size of zero or less the loop guard holds for every
    buffer: as soon as one page is read the generator is never exhausted,
    whatever the overlap. *)
Theorem nonpositive_window_never_finishes
    (fuel : nat) (p : Page) (rest : list Page) (chunk_size overlap : Z) :
  chunk_size <= 0 ->
  snd (chunks_from_pages fuel (p :: rest) chunk_size overlap) = false
  /\ length (fst (chunks_from_pages fuel (p :: rest) chunk_size overlap)) = fuel.
Proof.
  intros Hcs. unfold chunks_from_pages. destruct p as [page_num page_text]. simpl.
  destruct (emit_loop_unbounded_nonpositive fuel chunk_size overlap Hcs
              (NL :: page_text) ({[page_num]} ∪ ∅)) as [Hst Hn].
  destruct (emit_loop fuel chunk_size overlap (NL :: page_text) ({[page_num]} ∪ ∅))
    as [out st]. simpl in *. subst st. split; [reflexivity|exact Hn].
Qed.

Lemma nonpositive_window_never_finishes_witness :
  0 <= 0
  /\ snd (chunks_from_pages 5 [(1, [])] 0 (-1)) = false
  /\ length (fst (chunks_from_pages 5 [(1, [])] 0 (-1))) = 5%nat.
Proof.
  split; [lia|]. apply (nonpositive_window_never_finishes 5 (1, []) [] 0 (-1)). lia.
Defined.

(* ===================================================================== *)
(** ** The chunking engine: each page is attributed once *)
(* ===================================================================== *)

Lemma sorted_NoDup (s : gset Z) : NoDup (sorted s).
Proof. unfold sorted. rewrite merge_sort_Permutation. apply NoDup_elements. Qed.

(** The page lists of the chunks of one run of the inner loop, put end to
    end: the recorded pages if a chunk was yielded, and then the set is
    handed on empty. *)
Lemma emit_loop_page_lists fuel cs ov :
  forall buffer bp out st,
    emit_loop fuel cs ov buffer bp = (out, st) ->
    concat (List.map pages out) = match out with [] => [] | _ => sorted bp end
    /\ match st with
       | Some (_, bp') => bp' = match out with [] => bp | _ => ∅ end
       | None => True
       end.
Proof.
  induction fuel as [|fuel IH]; intros buffer bp out st; rewrite emit_loop_unfold;
    destruct (len buffer >=? cs).
  - intros [= <- <-]. auto.
  - intros [= <- <-]. auto.
  - destruct (emit_loop fuel cs ov (slice_from buffer (cs - ov)) ∅) as [out' st'] eqn:E.
    intros [= <- <-]. destruct (IH _ _ _ _ E) as (Hcat & Hst). split.
    + simpl. rewrite Hcat. destruct out'; rewrite ?sorted_empty; by rewrite app_nil_r.
    + destruct st' as [[b bp']|]; [|exact I]. rewrite Hst. by destruct out'.
  - intros [= <- <-]. auto.
Qed.

Lemma pages_loop_attribution fuel cs ov :
  forall ps buffer bp,
    NoDup (List.map fst ps) ->
    (forall n, n ∈ bp -> n ∉ List.map fst ps) ->
    NoDup (concat (List.map pages (fst (pages_loop fuel cs ov ps buffer bp))))
    /\ forall n, n ∈ concat (List.map pages (fst (pages_loop fuel cs ov ps buffer bp))) ->
                 n ∈ bp \/ n ∈ List.map fst ps.
Proof.
  induction ps as [|[page_num page_text] rest IH]; intros buffer bp Hnd Hdis; simpl.
  - destruct (truthy (strip buffer)); simpl.
    + rewrite app_nil_r. split; [apply sorted_NoDup|].
      intros n Hn. left. by apply sorted_elem_of.
    + split; [constructor|]. intros n Hn. by apply not_elem_of_nil in Hn.
  - apply NoDup_cons in Hnd as [Hfresh Hnd].
    destruct (emit_loop fuel cs ov (buffer ++ NL :: page_text) ({[page_num]} ∪ bp))
      as [out st] eqn:E.
    destruct (emit_loop_page_lists _ _ _ _ _ _ _ E) as (Hcat & Hst).
    assert (Hout : forall n, n ∈ concat (List.map pages out) ->
                             n ∈ bp \/ n ∈ page_num :: List.map fst rest).
    { intros n Hn. rewrite Hcat in Hn. destruct out; [by apply not_elem_of_nil in Hn|].
      apply sorted_elem_of in Hn. set_solver. }
    assert (Hnd1 : NoDup (concat (List.map pages out))).
    { rewrite Hcat. destruct out; [constructor|apply sorted_NoDup]. }
    destruct st as [[b bp']|]; [|by split].
    assert (Hdis' : forall n, n ∈ bp' -> n ∉ List.map fst rest).
    { intros n Hn. rewrite Hst in Hn. destruct out; [|set_solver].
      apply elem_of_union in Hn as [Hn|Hn].
      - apply elem_of_singleton in Hn as ->. exact Hfresh.
      - intros Hin. apply (Hdis n Hn). by right. }
    destruct (IH b bp' Hnd Hdis') as (Hnd2 & Hin2).
    destruct (pages_loop fuel cs ov rest b bp') as [more fin]. cbn [fst] in *.
    rewrite map_app, concat_app. split.
    + apply NoDup_app. split; [exact Hnd1|]. split; [|exact Hnd2].
      intros n Hn1 Hn2. rewrite Hcat in Hn1. destruct out as [|c out].
      * by apply not_elem_of_nil in Hn1.
      * apply sorted_elem_of in Hn1. destruct (Hin2 n Hn2) as [H|H].
        -- rewrite Hst in H. set_solver.
        -- apply elem_of_union in Hn1 as [Hn1|Hn1].
           ++ apply elem_of_singleton in Hn1 as ->. contradiction.
           ++ apply (Hdis n Hn1). by right.
    + intros n Hn. apply elem_of_app in Hn as [Hn|Hn]; [by apply Hout|].
      destruct (Hin2 n Hn) as [H|H]; [|right; by right].
      rewrite Hst in H. destruct out; [|set_solver].
      apply elem_of_union in H as [H|H]; [|by left].
      apply elem_of_singleton in H as ->. right. by left.
Qed.

(** When the pages carry distinct numbers, each page number is attributed to
    at most one chunk: no number occurs in the page lists of two chunks (or
    twice in one), even where the page's text runs over several chunks. *)
Theorem page_attributed_once (fuel : nat) (ps : list Page) (chunk_size overlap : Z) :
  NoDup (List.map fst ps) ->
  NoDup (concat (List.map pages (fst (chunks_from_pages fuel ps chunk_size overlap)))).
Proof.
  intros Hnd. unfold chunks_from_pages.
  apply (pages_loop_attribution fuel chunk_size overlap ps [] ∅ Hnd). set_solver.
Qed.

Lemma page_attributed_once_witness :
  NoDup (List.map fst [(1, letters 1500); (2, letters 1500)])
  /\ NoDup (concat (List.map pages
       (fst (chunks_from_pages 5 [(1, letters 1500); (2, letters 1500)]
               CHUNK_SIZE OVERLAP)))).
Proof.
  assert (H : NoDup (List.map fst [(1, letters 1500); (2, letters 1500)]))
    by (simpl; apply NoDup_cons; split; [set_solver|apply NoDup_singleton]).
  split; [exact H|].
  exact (page_attributed_once 5 [(1, letters 1500); (2, letters 1500)] CHUNK_SIZE OVERLAP H).
Defined.

Lemma blank_short_no_chunks_witness :
  blank_pages [(1, spaces 10); (2, [])] = true
  /\ len (joined_pages [(1, spaces 10); (2, [])]) < CHUNK_SIZE
  /\ chunks_from_pages 0 [(1, spaces 10); (2, [])] CHUNK_SIZE OVERLAP = ([], true).
Proof.
  split; [reflexivity|]. split; [vm_compute; reflexivity|].
  apply (blank_short_no_chunks 0 [(1, spaces 10); (2, [])] CHUNK_SIZE OVERLAP).
  - reflexivity.
  - vm_compute. reflexivity.
Defined.

(* ===================================================================== *)
(** ** Ingestion: what is written, and what is left alone *)
(* ===================================================================== *)

Section IngestionFacts.

Context `{B : Backend}.

Lemma index_path_eq : index_path = lit "./faiss_store/index".
Proof. reflexivity. Qed.

Lemma index_path_not_pending (file_hash : pystr) : index_path <> pending_path file_hash.
Proof. rewrite index_path_eq, pending_path_eq. discriminate. Qed.

Lemma index_path_not_log : index_path <> LOG_FILE.
Proof. rewrite index_path_eq. discriminate. Qed.

Lemma log_text_log_error (msg : pystr) (w : World) :
  log_text (log_error msg w) = log_text w ++ ctime w ++ lit ": " ++ msg ++ [NL].
Proof. unfold log_text, log_error. simpl. by rewrite lookup_insert_eq. Qed.

Lemma log_text_write_json (path : pystr) (batch : PendingBatch) (w : World) :
  path <> LOG_FILE -> log_text (write_json path batch w) = log_text w.
Proof. intros H. unfold log_text, write_json. simpl. by rewrite lookup_insert_ne. Qed.

Lemma init_embedder_key (w : World) (key : pystr) :
  init_embedder w = Some key -> getenv_truthy w OPENAI_API_KEY = true.
Proof. unfold init_embedder. by destruct (getenv_truthy w OPENAI_API_KEY). Qed.


Lemma process_keeps_file (pdf_path fname file_hash : pystr) (w : World) (path : pystr) :
  path ∉ ingestion_paths file_hash ->
  files (fst (process_and_index_faiss pdf_path fname file_hash w)) !! path
  = files w !! path.
Proof.
  intros Hpath. unfold ingestion_paths in Hpath.
  assert (H1 : pending_path file_hash <> path) by set_solver.
  assert (H2 : LOG_FILE <> path) by set_solver.
  assert (H3 : index_path <> path) by set_solver.
  unfold process_and_index_faiss.
  destruct (extract_text_page_by_page w pdf_path) as [ps|e]; [|reflexivity].
  destruct (chunk_objs ps) as [|c cs]; [reflexivity|].
  destruct (init_embedder w).
  - destruct (from_texts _ _) as [store|e]; simpl.
    + by rewrite lookup_insert_ne by exact H3.
    + by rewrite !lookup_insert_ne by assumption.
  - simpl. by rewrite !lookup_insert_ne by assumption.
Qed.

(** Whatever the outcome, [process_and_index_faiss] writes at most three
    files: the pending file of the hash, the log and the saved index. Every
    other file, the uploaded PDF included, keeps its content; the
    environment, the clock and the queued jobs are unchanged and no
    directory disappears. *)
Theorem ingestion_frame (pdf_path fname file_hash : pystr) (w : World) (path : pystr) :
  path ∉ ingestion_paths file_hash ->
  let w' := fst (process_and_index_faiss pdf_path fname file_hash w) in
  files w' !! path = files w !! path
  /\ environ w' = environ w /\ ctime w' = ctime w
  /\ background_tasks w' = background_tasks w
  /\ dirs w ⊆ dirs w'.
Proof.
  intros Hpath. unfold ingestion_paths in Hpath.
  assert (H1 : pending_path file_hash <> path) by set_solver.
  assert (H2 : LOG_FILE <> path) by set_solver.
  assert (H3 : index_path <> path) by set_solver.
  cbv zeta. unfold process_and_index_faiss.
  destruct (extract_text_page_by_page w pdf_path) as [ps|e]; [|by repeat split].
  destruct (chunk_objs ps) as [|c cs]; [by repeat split|].
  destruct (init_embedder w).
  - destruct (from_texts _ _) as [store|e]; simpl.
    + rewrite lookup_insert_ne by exact H3. repeat split. set_solver.
    + rewrite !lookup_insert_ne by assumption. by repeat split.
  - simpl. rewrite !lookup_insert_ne by assumption. by repeat split.
Qed.


(** A successful ingestion changes one file only, the saved index: the log
    gets no line, and a pending batch left by an earlier attempt, also one
    for the same hash, stays where it is. *)
Theorem success_leaves_pending_and_log
    (pdf_path fname file_hash : pystr) (w w' : World) (n : Z) (dir : pystr) :
  process_and_index_faiss pdf_path fname file_hash w = (w', Returned (Indexed n dir)) ->
  (forall path, path <> index_path -> files w' !! path = files w !! path)
  /\ files w' !! pending_path file_hash = files w !! pending_path file_hash
  /\ log_text w' = log_text w
  /\ isdir w' FAISS_DIR = true.
Proof.
  unfold process_and_index_faiss.
  destruct (extract_text_page_by_page w pdf_path) as [ps|e]; [|discriminate].
  destruct (chunk_objs ps) as [|c cs]; [discriminate|].
  destruct (init_embedder w); [|discriminate].
  destruct (from_texts _ _) as [store|e]; [|discriminate].
  intros [= <- <- <-].
  assert (Hframe : forall path, path <> index_path ->
            files (save_local store w) !! path = files w !! path).
  { intros path Hp. unfold save_local. simpl. by rewrite lookup_insert_ne. }
  split; [exact Hframe|]. split; [|split].
  - apply Hframe. intros E. symmetry in E. by apply index_path_not_pending in E.
  - unfold log_text. rewrite Hframe; [reflexivity|].
    intros E. symmetry in E. by apply index_path_not_log in E.
  - unfold isdir, save_local. simpl. apply bool_decide_eq_true. set_solver.
Qed.

(** The diagnostic log only grows: after any call the old log text is the
    beginning of the new one. *)
Theorem log_is_append_only (pdf_path fname file_hash : pystr) (w : World) :
  exists added,
    log_text (fst (process_and_index_faiss pdf_path fname file_hash w))
    = log_text w ++ added.
Proof.
  unfold process_and_index_faiss.
  destruct (extract_text_page_by_page w pdf_path) as [ps|e];
    [|exists []; by rewrite app_nil_r].
  destruct (chunk_objs ps) as [|c cs]; [exists []; by rewrite app_nil_r|].
  assert (Hp : pending_path file_hash <> LOG_FILE)
    by (intros E; symmetry in E; by apply pending_path_not_log in E).
  destruct (init_embedder w).
  - destruct (from_texts _ _) as [store|e]; simpl fst.
    + exists []. rewrite app_nil_r. unfold log_text, save_local. simpl.
      rewrite lookup_insert_ne; [reflexivity|apply index_path_not_log].
    + eexists. rewrite log_text_log_error, log_text_write_json by exact Hp.
      unfold write_json. simpl. reflexivity.
  - eexists. simpl fst. rewrite log_text_log_error, log_text_write_json by exact Hp.
    unfold write_json. simpl. reflexivity.
Qed.

(** Ingestion and retrieval fit together: after a successful ingestion
    [load_retriever] finds the directory, the key and the saved store, and the
    store it loads is the one built from the chunks of the ingested file. *)
Theorem ingest_then_load
    (pdf_path fname file_hash : pystr) (w w' : World) (n : Z) (dir : pystr) :
  process_and_index_faiss pdf_path fname file_hash w = (w', Returned (Indexed n dir)) ->
  exists ps store,
    extract_text_page_by_page w pdf_path = Returned ps
    /\ from_texts (List.map text (chunk_objs ps))
                  (List.map (chunk_metadata fname) (chunk_objs ps)) = Returned store
    /\ load_retriever w' = Returned (Some store).
Proof.
  unfold process_and_index_faiss.
  destruct (extract_text_page_by_page w pdf_path) as [ps|e]; [|discriminate].
  destruct (chunk_objs ps) as [|c cs] eqn:Hch; [discriminate|].
  destruct (init_embedder w) as [key|] eqn:Hkey; [|discriminate].
  destruct (from_texts _ _) as [store|e] eqn:Hft; [|discriminate].
  intros [= <- <- <-]. exists ps, store. rewrite Hch.
  split; [reflexivity|]. split; [exact Hft|].
  unfold load_retriever.
  assert (Hdir : isdir (save_local store w) FAISS_DIR = true)
    by (unfold isdir, save_local; simpl; apply bool_decide_eq_true; set_solver).
  assert (Henv : getenv_truthy (save_local store w) OPENAI_API_KEY = true)
    by (apply init_embedder_key in Hkey; exact Hkey).
  rewrite Hdir, Henv. simpl negb. cbv iota.
  unfold load_local, save_local. simpl. by rewrite lookup_insert_eq.
Qed.

End IngestionFacts.

(* ===================================================================== *)
(** ** Upload: accepted uploads and error statuses *)
(* ===================================================================== *)

Section UploadFacts.

Context `{B : Backend}.

Lemma with_files_id (w : World) : with_files w (files w) = w.
Proof. by destruct w. Qed.

Lemma total_bytes_nonneg (blocks : list Bytes) : 0 <= total_bytes blocks.
Proof. induction blocks as [|b l IH]; simpl; lia. Qed.

(** While the running count stays within [MAX_BYTES] the read loop appends
    every block to the temporary file and touches nothing else. *)
Lemma receive_within_limit (temp_path : pystr) :
  forall (blocks : list Bytes) (size : Z) (w : World) (old : list Bytes),
    Forall (fun b => blen b <> 0%N) blocks ->
    files w !! temp_path = Some (FBytes old) ->
    size + total_bytes blocks <= MAX_BYTES ->
    receive blocks size temp_path w
    = (with_files w (<[ temp_path := FBytes (old ++ blocks) ]> (files w)), Returned tt).
Proof.
  induction blocks as [|chunk rest IH]; intros size w old Hnz Hold Hle; simpl in *.
  - rewrite app_nil_r, insert_id by exact Hold. by rewrite with_files_id.
  - inversion Hnz as [|? ? Hc Hrest]; subst.
    destruct (N.eqb_spec (blen chunk) 0) as [E|_]; [contradiction|].
    pose proof (total_bytes_nonneg rest).
    destruct (Z.gtb_spec (size + Z.of_N (blen chunk)) MAX_BYTES) as [Hbig|_]; [lia|].
    rewrite (IH _ _ (old ++ [chunk]) Hrest).
    + unfold append_bytes, with_files. simpl. rewrite Hold, insert_insert_eq.
      by rewrite <- app_assoc.
    + unfold append_bytes. simpl. rewrite Hold. apply lookup_insert_eq.
    + lia.
Qed.

(** An upload within the limit, handed to the background: the temporary file
    holds exactly the uploaded blocks, the hash returned is the hash of that
    content, and one job with the path, the name and the hash is queued.
    Nothing is indexed before the response. *)
Theorem background_upload_accepted
    (fname : pystr) (blocks : list Bytes) (temp_path : pystr) (w : World) :
  endswith (List.map lower_char fname) (lit ".pdf") = true ->
  Forall (fun b => blen b <> 0%N) blocks ->
  total_bytes blocks <= MAX_BYTES ->
  exists w',
    upload_pdf fname blocks true temp_path w
    = (w', Returned (Uploaded (sha256_hexdigest blocks)
                              (lit "Indexing started in background.")))
    /\ files w' = <[ temp_path := FBytes blocks ]> (files w)
    /\ background_tasks w'
       = background_tasks w ++ [ (temp_path, fname, sha256_hexdigest blocks) ]
    /\ dirs w' = dirs w.
Proof.
  intros Hpdf Hnz Hle. unfold upload_pdf, upload_try. rewrite Hpdf. simpl negb. cbv iota.
  rewrite (receive_within_limit temp_path blocks 0 _ [] Hnz);
    [|simpl; apply lookup_insert_eq|simpl; lia].
  unfold sha256_of_file. simpl. rewrite insert_insert_eq, lookup_insert_eq.
  eexists. split; [reflexivity|]. simpl. by repeat split.
Qed.

Lemma upload_try_sync
    (fname : pystr) (blocks : list Bytes) (temp_path : pystr) (w : World) :
  Forall (fun b => blen b <> 0%N) blocks ->
  total_bytes blocks <= MAX_BYTES ->
  upload_try fname blocks false temp_path
             (with_files w (<[ temp_path := FBytes [] ]> (files w)))
  = process_and_index_faiss temp_path fname (sha256_hexdigest blocks)
      (with_files w (<[ temp_path := FBytes blocks ]> (files w))).
Proof.
  intros Hnz Hle. unfold upload_try.
  rewrite (receive_within_limit temp_path blocks 0 _ [] Hnz);
    [|simpl; apply lookup_insert_eq|simpl; lia].
  unfold sha256_of_file. simpl app. cbn [files with_files].
  by rewrite insert_insert_eq, lookup_insert_eq.
Qed.

(** A synchronous upload within the limit runs the ingestion on the stored
    file. Its response is passed on as it is; an exception it raises becomes
    a 500 carrying the exception's text, and the temporary file is removed. *)
Theorem sync_upload_result
    (fname : pystr) (blocks : list Bytes) (temp_path : pystr) (w : World) :
  endswith (List.map lower_char fname) (lit ".pdf") = true ->
  Forall (fun b => blen b <> 0%N) blocks ->
  total_bytes blocks <= MAX_BYTES ->
  let stored := with_files w (<[ temp_path := FBytes blocks ]> (files w)) in
  match process_and_index_faiss temp_path fname (sha256_hexdigest blocks) stored with
  | (w2, Returned r) =>
      upload_pdf fname blocks false temp_path w = (w2, Returned r)
  | (_, Raised e) =>
      exists w',
        upload_pdf fname blocks false temp_path w
        = (w', Raised (HTTPException 500 (str_exn e)))
        /\ files w' !! temp_path = None
  end.
Proof.
  intros Hpdf Hnz Hle. cbv zeta. unfold upload_pdf.
  rewrite Hpdf. simpl negb. cbv iota. rewrite upload_try_sync by assumption.
  destruct (process_and_index_faiss temp_path fname (sha256_hexdigest blocks) _)
    as [w2 [r|e]]; [reflexivity|].
  eexists. split; [reflexivity|].
  destruct (path_exists w2 temp_path) eqn:Hex.
  - unfold os_remove. simpl. apply lookup_delete_eq.
  - unfold path_exists in Hex. apply orb_false_iff in Hex as [Hex _].
    apply bool_decide_eq_false in Hex. by apply eq_None_not_Some.
Qed.

(** After a synchronous upload has returned a response, the temporary file
    is still on disk with the uploaded content: the success path never
    removes it. *)
Theorem sync_upload_keeps_temp_file
    (fname : pystr) (blocks : list Bytes) (temp_path : pystr) (w w' : World)
    (r : Response) :
  endswith (List.map lower_char fname) (lit ".pdf") = true ->
  Forall (fun b => blen b <> 0%N) blocks ->
  total_bytes blocks <= MAX_BYTES ->
  temp_path ∉ ingestion_paths (sha256_hexdigest blocks) ->
  upload_pdf fname blocks false temp_path w = (w', Returned r) ->
  files w' !! temp_path = Some (FBytes blocks).
Proof.
  intros Hpdf Hnz Hle Hpath. unfold upload_pdf.
  rewrite Hpdf. simpl negb. cbv iota. rewrite upload_try_sync by assumption.
  pose proof (process_keeps_file temp_path fname (sha256_hexdigest blocks)
                (with_files w (<[ temp_path := FBytes blocks ]> (files w)))
                temp_path Hpath) as Hfile.
  destruct (process_and_index_faiss temp_path fname (sha256_hexdigest blocks) _)
    as [w2 [r2|e]]; [|discriminate].
  intros [= <- <-]. cbn [fst] in Hfile. rewrite Hfile. simpl. apply lookup_insert_eq.
Qed.

(** The only statuses [upload_pdf] raises are 400 and 500. The 400 is for a
    name that does not end in [.pdf], and then nothing was written. Every
    failure of an upload with a [.pdf] name is a 500, and then no temporary
    file is left. *)
Theorem upload_errors_are_400_or_500
    (fname : pystr) (blocks : list Bytes) (background : bool)
    (temp_path : pystr) (w w' : World) (e : Exn) :
  upload_pdf fname blocks background temp_path w = (w', Raised e) ->
  (endswith (List.map lower_char fname) (lit ".pdf") = false
   /\ e = HTTPException 400 (lit "Only PDF files are accepted.") /\ w' = w)
  \/ (endswith (List.map lower_char fname) (lit ".pdf") = true
      /\ (exists detail, e = HTTPException 500 detail)
      /\ files w' !! temp_path = None).
Proof.
  unfold upload_pdf. destruct (endswith _ _); simpl negb; cbv iota.
  - destruct (upload_try _ _ _ _ _) as [w1 [r|e1]]; [discriminate|].
    intros [= <- <-]. right. split; [reflexivity|]. split; [by eexists|].
    destruct (path_exists w1 temp_path) eqn:Hex.
    + unfold os_remove. simpl. apply lookup_delete_eq.
    + unfold path_exists in Hex. apply orb_false_iff in Hex as [Hex _].
      apply bool_decide_eq_false in Hex. by apply eq_None_not_Some.
  - intros [= <- <-]. left. by repeat split.
Qed.

(* ===================================================================== *)
(** ** Retrieval: the answers and their sources *)
(* ===================================================================== *)

(** When every retrieved document is shorter than 80 characters once
    trimmed, the answer is the fixed "Not enough meaningful context" text
    with no sources; the language model is not asked. *)
Theorem short_matches_not_enough (question : pystr) (w : World)
    (db : list (Vec * Document)) :
  load_retriever w = Returned (Some db) ->
  similarity_search db 6 question <> [] ->
  Forall (fun d => len (strip (page_content d)) < 80) (similarity_search db 6 question) ->
  answer_question question w = Returned (NOT_ENOUGH, []).
Proof.
  intros Hload Hne Hshort. unfold answer_question. rewrite Hload.
  destruct (similarity_search db 6 question) as [|d docs]; [congruence|].
  rewrite filter_docs_spec, !app_nil_l.
  assert (Hnone : List.filter survives (d :: docs) = []).
  { generalize dependent (d :: docs). clear. intros l _ Hshort.
    induction Hshort as [|x l Hx _ IH]; [reflexivity|]. simpl.
    unfold survives at 1. destruct (Z.ltb_spec (len (strip (page_content x))) 80); [|lia].
    exact IH. }
  rewrite Hnone. reflexivity.
Qed.

(** An answer that comes with no sources is one of the three fixed texts:
    whatever the language model writes is only ever returned together with
    at least one source. *)
Theorem empty_sources_fixed_answer (question : pystr) (w : World) (answer : pystr) :
  answer_question question w = Returned (answer, []) ->
  answer = NO_DOCUMENTS \/ answer = NO_RELEVANT \/ answer = NOT_ENOUGH.
Proof.
  unfold answer_question.
  destruct (load_retriever w) as [[db|]|e]; [| intros [= <-]; by left | discriminate].
  destruct (similarity_search db 6 question) as [|d docs];
    [intros [= <-]; right; by left|].
  rewrite filter_docs_spec, !app_nil_l.
  destruct (List.filter survives (d :: docs)) as [|s l]; simpl.
  - intros [= <-]. right. by right.
  - discriminate.
Qed.

Lemma source_of_snippet_bounds (d : Document) :
  survives d = true -> 80 <= len (src_snippet (source_of d)) <= 300.
Proof.
  unfold survives, source_of. simpl. intros Hs. apply negb_true_iff in Hs.
  apply Z.ltb_ge in Hs. unfold len, slice_to, clamp in *. rewrite length_take.
  simpl. lia.
Qed.

(** Every source returned carries a snippet of at least 80 and at most 300
    characters. *)
Theorem snippet_bounds (question : pystr) (w : World) (answer : pystr)
    (sources : list SourceRecord) :
  answer_question question w = Returned (answer, sources) ->
  Forall (fun s => 80 <= len (src_snippet s) <= 300) sources.
Proof.
  unfold answer_question.
  destruct (load_retriever w) as [[db|]|e]; [| intros [= _ <-]; constructor | discriminate].
  destruct (similarity_search db 6 question) as [|d docs]; [intros [= _ <-]; constructor|].
  rewrite filter_docs_spec, !app_nil_l.
  pose proof (fun x H => proj2 (proj1 (filter_In survives x (d :: docs)) H)) as Hsurv.
  destruct (List.filter survives (d :: docs)) as [|s l]; simpl.
  - intros [= _ <-]. constructor.
  - intros [= _ <-]. apply Forall_forall. intros r Hr.
    apply list_elem_of_In in Hr. change (In r (List.map source_of (s :: l))) in Hr.
    apply in_map_iff in Hr as [x [<- Hx]]. apply source_of_snippet_bounds. by apply Hsurv.
Qed.

(** Every answer returned is trimmed, the fixed texts as well as the text of
    the language model. *)
Theorem answer_is_trimmed (question : pystr) (w : World) (answer : pystr)
    (sources : list SourceRecord) :
  answer_question question w = Returned (answer, sources) -> trimmed answer.
Proof.
  unfold answer_question.
  destruct (load_retriever w) as [[db|]|e];
    [| intros [= <- _]; by vm_compute | discriminate].
  destruct (similarity_search db 6 question) as [|d docs];
    [intros [= <- _]; by vm_compute|].
  rewrite filter_docs_spec, !app_nil_l.
  destruct (List.filter survives (d :: docs)) as [|s l]; simpl.
  - intros [= <- _]. by vm_compute.
  - intros [= <- _]. apply strip_trimmed.
Qed.

End UploadFacts.

(* ===================================================================== *)
(** ** The notes database *)
(* ===================================================================== *)

Lemma max_rowid_ge (l : list Note) (n : Note) : n ∈ l -> note_id n <= max_rowid l.
Proof.
  induction l as [|m l IH]; intros Hn; [by apply not_elem_of_nil in Hn|].
  simpl. apply elem_of_cons in Hn as [->|Hn]; [lia|]. specialize (IH Hn). lia.
Qed.

Lemma max_rowid_nonneg (l : list Note) : 0 <= max_rowid l.
Proof. induction l as [|m l IH]; simpl; lia. Qed.

Lemma update_note_id (id : Z) (c s : pystr) (now : Z) (n : Note) :
  note_id (update_note id c s now n) = note_id n.
Proof. unfold update_note. by destruct (note_id n =? id). Qed.

Lemma map_update_ids (id : Z) (c s : pystr) (now : Z) (l : list Note) :
  List.map note_id (List.map (update_note id c s now) l) = List.map note_id l.
Proof.
  rewrite List.map_map. apply List.map_ext. intros n. apply update_note_id.
Qed.

Lemma select_note_none (id : Z) (l : list Note) :
  select_note id l = None <-> id ∉ List.map note_id l.
Proof.
  unfold select_note. induction l as [|n l IH]; simpl.
  - split; [intros _; apply not_elem_of_nil|reflexivity].
  - destruct (Z.eqb_spec (note_id n) id) as [E|E].
    + split; [discriminate|]. intros H. exfalso. apply H. rewrite E. by left.
    + rewrite IH. split; intros H.
      * apply not_elem_of_cons. split; [congruence|exact H].
      * by apply not_elem_of_cons in H as [_ H].
Qed.

Lemma select_note_unique (l : list Note) (n : Note) :
  NoDup (List.map note_id l) -> n ∈ l -> select_note (note_id n) l = Some n.
Proof.
  unfold select_note. induction l as [|m l IH]; intros Hnd Hn;
    [by apply not_elem_of_nil in Hn|].
  simpl in *. apply NoDup_cons in Hnd as [Hm Hnd].
  destruct (Z.eqb_spec (note_id m) (note_id n)) as [E|E].
  - apply elem_of_cons in Hn as [->|Hn]; [reflexivity|]. exfalso. apply Hm.
    rewrite E. apply list_elem_of_In, in_map, list_elem_of_In. exact Hn.
  - apply elem_of_cons in Hn as [->|Hn]; [congruence|]. by apply IH.
Qed.

Lemma select_note_in (id : Z) (l : list Note) (n : Note) :
  select_note id l = Some n -> n ∈ l /\ note_id n = id.
Proof.
  unfold select_note. intros H. apply find_some in H as [Hin Hid].
  split; [by apply list_elem_of_In|by apply Z.eqb_eq].
Qed.

Lemma select_note_updated (id : Z) (c s : pystr) (now : Z) (l : list Note) :
  select_note id (List.map (update_note id c s now) l)
  = update_note id c s now <$> select_note id l.
Proof.
  unfold select_note. induction l as [|n l IH]; [reflexivity|]. simpl.
  rewrite update_note_id. destruct (note_id n =? id); [reflexivity|exact IH].
Qed.

Lemma select_note_other (id id' : Z) (c s : pystr) (now : Z) (l : list Note) :
  id' <> id ->
  select_note id' (List.map (update_note id c s now) l) = select_note id' l.
Proof.
  intros Hne. unfold select_note. induction l as [|n l IH]; [reflexivity|]. simpl.
  rewrite update_note_id. destruct (Z.eqb_spec (note_id n) id') as [E|E]; [|exact IH].
  unfold update_note. destruct (Z.eqb_spec (note_id n) id); [congruence|reflexivity].
Qed.

(** [create_note] appends one row with the given title, content and sources
    and both timestamps set to the current time. Its id is above the counter
    and above every id in the table, so no id is ever used twice; the rows
    already there are not touched. *)
Theorem create_note_adds_row (title content sources : pystr) (now : Z) (t : NotesTable) :
  exists id,
    create_note title content sources now (Some t)
    = (Some {| sequence := id;
               rows := rows t ++ [ mkNote id title content sources now now ] |},
       Returned tt)
    /\ sequence t < id
    /\ Forall (fun n => note_id n < id) (rows t).
Proof.
  exists (Z.max (sequence t) (max_rowid (rows t)) + 1). split; [reflexivity|].
  split; [lia|]. apply Forall_forall. intros n Hn.
  pose proof (max_rowid_ge _ _ Hn). lia.
Qed.

(** The ids in the table stay positive, pairwise distinct and below the
    counter: the empty table made by [init_notes_db] is in that state, and
    [create_note] and [append_to_note] keep it. *)
Theorem notes_table_invariant :
  (exists t0, init_notes_db None = Some t0 /\ table_ok t0)
  /\ (forall title content sources now t,
        table_ok t ->
        exists t', fst (create_note title content sources now (Some t)) = Some t'
                   /\ table_ok t')
  /\ (forall id content sources now t,
        table_ok t ->
        exists t', fst (append_to_note id content sources now (Some t)) = Some t'
                   /\ table_ok t').
Proof.
  split; [|split].
  - eexists. split; [reflexivity|]. split; simpl; constructor.
  - intros title content sources now t [Hnd Hall]. eexists. split; [reflexivity|].
    pose proof (max_rowid_nonneg (rows t)) as Hmax. split; simpl.
    + rewrite map_app. apply NoDup_app. split; [exact Hnd|]. split; [|apply NoDup_singleton].
      intros i Hi Hnew. apply list_elem_of_singleton in Hnew. simpl in Hnew. subst i.
      apply list_elem_of_In, in_map_iff in Hi as [n [Hid Hn]].
      apply list_elem_of_In in Hn. pose proof (max_rowid_ge _ _ Hn). lia.
    + apply Forall_app. split.
      * eapply Forall_impl; [exact Hall|]. intros n Hn. simpl in Hn. lia.
      * constructor; [simpl; lia|constructor].
  - intros id content sources now t [Hnd Hall]. unfold append_to_note.
    destruct (select_note id (rows t)) as [old|]; simpl.
    + eexists. split; [reflexivity|]. split; simpl.
      * by rewrite map_update_ids.
      * apply Forall_forall. intros n Hn.
        apply list_elem_of_In, in_map_iff in Hn as [m [<- Hm]].
        rewrite update_note_id. rewrite Forall_forall in Hall.
        apply Hall. by apply list_elem_of_In.
    + exists t. by split.
Qed.

(** Appending to an id that no row has raises, and the database is left as
    it was. *)
Theorem append_to_missing_note (id : Z) (content sources : pystr) (now : Z)
    (t : NotesTable) :
  id ∉ List.map note_id (rows t) ->
  exists e, append_to_note id content sources now (Some t) = (Some t, Raised e).
Proof.
  intros Hid. apply select_note_none in Hid. unfold append_to_note. rewrite Hid.
  by eexists.
Qed.

Lemma append_to_missing_note_witness :
  (7 ∉ List.map note_id (rows sample_table))
  /\ exists e,
       append_to_note 7 (lit "More.") (lit "c.pdf") 300 (Some sample_table)
       = (Some sample_table, Raised e).
Proof.
  assert (H : 7 ∉ List.map note_id (rows sample_table)) by (simpl; set_solver).
  split; [exact H|].
  exact (append_to_missing_note 7 (lit "More.") (lit "c.pdf") 300 sample_table H).
Defined.

Lemma append_to_note_select (old : Note) (new_content new_sources : pystr) (now : Z)
    (t : NotesTable) :
  table_ok t -> old ∈ rows t ->
  exists t',
    append_to_note (note_id old) new_content new_sources now (Some t)
    = (Some t', Returned tt)
    /\ rows t' = List.map (update_note (note_id old)
                             (note_content old ++ NOTE_SEP ++ new_content)
                             (note_sources old ++ lit ", " ++ new_sources) now) (rows t)
    /\ select_note (note_id old) (rows t')
       = Some (mkNote (note_id old) (note_title old)
                 (note_content old ++ NOTE_SEP ++ new_content)
                 (note_sources old ++ lit ", " ++ new_sources)
                 (note_created_at old) now).
Proof.
  intros [Hnd _] Hold. unfold append_to_note.
  rewrite (select_note_unique _ _ Hnd Hold). eexists. split; [reflexivity|].
  split; [reflexivity|]. simpl.
  rewrite select_note_updated, (select_note_unique _ _ Hnd Hold). simpl.
  unfold update_note. by rewrite Z.eqb_refl.
Qed.

(** Appending to an existing note joins old and new content with the
    ["---"] separator and old and new sources with a comma, and sets
    [updated_at]; title, id and creation time stay. Every other note, and
    the number of notes, is unchanged. *)
Theorem append_to_note_updates (old : Note) (new_content new_sources : pystr) (now : Z)
    (t : NotesTable) :
  table_ok t -> old ∈ rows t ->
  exists t',
    append_to_note (note_id old) new_content new_sources now (Some t)
    = (Some t', Returned tt)
    /\ select_note (note_id old) (rows t')
       = Some (mkNote (note_id old) (note_title old)
                 (note_content old ++ NOTE_SEP ++ new_content)
                 (note_sources old ++ lit ", " ++ new_sources)
                 (note_created_at old) now)
    /\ (forall id', id' <> note_id old ->
          select_note id' (rows t') = select_note id' (rows t))
    /\ List.map note_id (rows t') = List.map note_id (rows t).
Proof.
  intros Hok Hold.
  destruct (append_to_note_select old new_content new_sources now t Hok Hold)
    as (t' & Hrun & Hrows & Hsel).
  exists t'. split; [exact Hrun|]. split; [exact Hsel|]. rewrite Hrows. split.
  - intros id' Hne. by apply select_note_other.
  - apply map_update_ids.
Qed.

Lemma sample_table_ok : table_ok sample_table.
Proof.
  split; simpl.
  - apply NoDup_cons. split; [set_solver|apply NoDup_singleton].
  - repeat constructor; simpl; lia.
Qed.

Lemma append_to_note_updates_witness :
  let old := mkNote 1 (lit "EDA") (lit "First answer.") (lit "a.pdf") 100 100 in
  table_ok sample_table /\ old ∈ rows sample_table
  /\ exists t',
       append_to_note 1 (lit "More.") (lit "c.pdf") 300 (Some sample_table)
       = (Some t', Returned tt)
       /\ select_note 1 (rows t')
          = Some (mkNote 1 (lit "EDA") (lit "First answer." ++ NOTE_SEP ++ lit "More.")
                    (lit "a.pdf" ++ lit ", " ++ lit "c.pdf") 100 300).
Proof.
  cbv zeta.
  assert (Hin : mkNote 1 (lit "EDA") (lit "First answer.") (lit "a.pdf") 100 100
                ∈ rows sample_table) by (simpl; by left).
  split; [exact sample_table_ok|]. split; [exact Hin|].
  destruct (append_to_note_updates _ (lit "More.") (lit "c.pdf") 300 sample_table
              sample_table_ok Hin) as (t' & Hrun & Hsel & _).
  exists t'. split; [exact Hrun|exact Hsel].
Defined.

(** A note that was just created can be appended to under the id it was
    given, and then reads back as the created note with the appended
    content and sources. *)
Theorem create_then_append
    (title content sources new_content new_sources : pystr) (now later : Z)
    (t : NotesTable) :
  table_ok t ->
  exists id t1 t2,
    create_note title content sources now (Some t) = (Some t1, Returned tt)
    /\ append_to_note id new_content new_sources later (Some t1) = (Some t2, Returned tt)
    /\ select_note id (rows t2)
       = Some (mkNote id title (content ++ NOTE_SEP ++ new_content)
                 (sources ++ lit ", " ++ new_sources) now later)
    /\ length (rows t2) = S (length (rows t)).
Proof.
  intros [Hnd Hall].
  set (id := Z.max (sequence t) (max_rowid (rows t)) + 1).
  set (note := mkNote id title content sources now now).
  set (t1 := {| sequence := id; rows := rows t ++ [note] |}).
  assert (Hok1 : table_ok t1).
  { split; simpl.
    - rewrite map_app. apply NoDup_app. split; [exact Hnd|]. split; [|apply NoDup_singleton].
      intros i Hi Hnew. apply list_elem_of_singleton in Hnew. simpl in Hnew. subst i.
      apply list_elem_of_In, in_map_iff in Hi as [n [Hid Hn]].
      apply list_elem_of_In in Hn. pose proof (max_rowid_ge _ _ Hn).
      subst id. lia.
    - pose proof (max_rowid_nonneg (rows t)). apply Forall_app. split.
      + eapply Forall_impl; [exact Hall|]. intros n Hn. simpl in Hn. subst id. lia.
      + constructor; [simpl; subst id; lia|constructor]. }
  assert (Hin : note ∈ rows t1) by (simpl; apply elem_of_app; right; by left).
  destruct (append_to_note_select note new_content new_sources later t1 Hok1 Hin)
    as (t2 & Hrun & Hrows & Hsel).
  exists id, t1, t2. split; [reflexivity|]. split; [exact Hrun|]. split; [exact Hsel|].
  rewrite Hrows, length_map. simpl. rewrite length_app. simpl. lia.
Qed.

Lemma create_then_append_witness :
  table_ok sample_table
  /\ exists id t1 t2,
       create_note (lit "SVD") (lit "Third answer.") (lit "c.pdf") 300 (Some sample_table)
       = (Some t1, Returned tt)
       /\ append_to_note id (lit "More.") (lit "d.pdf") 400 (Some t1) = (Some t2, Returned tt)
       /\ select_note id (rows t2)
          = Some (mkNote id (lit "SVD") (lit "Third answer." ++ NOTE_SEP ++ lit "More.")
                    (lit "c.pdf" ++ lit ", " ++ lit "d.pdf") 300 400)
       /\ length (rows t2) = S (length (rows sample_table)).
Proof.
  split; [exact sample_table_ok|].
  exact (create_then_append (lit "SVD") (lit "Third answer.") (lit "c.pdf")
           (lit "More.") (lit "d.pdf") 300 400 sample_table sample_table_ok).
Defined.

Lemma newer_first_total : Total newer_first.
Proof. intros a b. unfold newer_first. lia. Qed.

Lemma newer_first_trans : Transitive newer_first.
Proof. intros a b c. unfold newer_first. lia. Qed.

(** [list_notes] returns every row exactly once, most recently updated
    first. *)
Theorem list_notes_sorted (t : NotesTable) :
  exists l,
    list_notes (Some t) = Returned l
    /\ l ≡ₚ rows t
    /\ StronglySorted newer_first l.
Proof.
  exists (merge_sort newer_first (rows t)). split; [reflexivity|].
  split; [apply merge_sort_Permutation|].
  apply (@Sorted_StronglySorted _ newer_first newer_first_trans).
  apply (@Sorted_merge_sort _ newer_first _ newer_first_total).
Qed.

(** A note appended to at a time later than every [updated_at] in the table
    comes first in [list_notes]. *)
Theorem appended_note_listed_first (old : Note) (new_content new_sources : pystr)
    (now : Z) (t : NotesTable) :
  table_ok t -> old ∈ rows t ->
  Forall (fun n => note_updated_at n < now) (rows t) ->
  exists t' rest,
    append_to_note (note_id old) new_content new_sources now (Some t)
    = (Some t', Returned tt)
    /\ list_notes (Some t')
       = Returned (mkNote (note_id old) (note_title old)
                     (note_content old ++ NOTE_SEP ++ new_content)
                     (note_sources old ++ lit ", " ++ new_sources)
                     (note_created_at old) now :: rest).
Proof.
  intros Hok Hold Hbefore.
  destruct (append_to_note_select old new_content new_sources now t Hok Hold)
    as (t' & Hrun & Hrows & Hsel).
  set (u := mkNote (note_id old) (note_title old)
              (note_content old ++ NOTE_SEP ++ new_content)
              (note_sources old ++ lit ", " ++ new_sources)
              (note_created_at old) now) in *.
  exists t'. unfold list_notes.
  assert (Hperm : merge_sort newer_first (rows t') ≡ₚ rows t')
    by apply merge_sort_Permutation.
  assert (Hsorted : StronglySorted newer_first (merge_sort newer_first (rows t'))).
  { apply (@Sorted_StronglySorted _ newer_first newer_first_trans).
    apply (@Sorted_merge_sort _ newer_first _ newer_first_total). }
  assert (Hu : u ∈ merge_sort newer_first (rows t')).
  { rewrite Hperm. by apply select_note_in in Hsel as [Hin _]. }
  destruct (merge_sort newer_first (rows t')) as [|h tl] eqn:El;
    [by apply not_elem_of_nil in Hu|].
  exists tl. split; [exact Hrun|]. f_equal. f_equal.
  assert (Hh : h ∈ rows t') by (rewrite <- Hperm; by left).
  rewrite Hrows in Hh.
  apply list_elem_of_In, in_map_iff in Hh as [m [Hm Hmin]]. apply list_elem_of_In in Hmin.
  destruct Hok as [Hnd _]. unfold update_note in Hm.
  destruct (Z.eqb_spec (note_id m) (note_id old)) as [E|E].
  - pose proof (select_note_unique _ _ Hnd Hmin) as H1.
    pose proof (select_note_unique _ _ Hnd Hold) as H2.
    rewrite E, H2 in H1. injection H1 as <-. exact (eq_sym Hm).
  - subst h. apply elem_of_cons in Hu as [Hu|Hu]; [by rewrite Hu|].
    exfalso. apply StronglySorted_inv in Hsorted as [_ Hall].
    rewrite Forall_forall in Hall, Hbefore.
    specialize (Hall u Hu). specialize (Hbefore m Hmin).
    unfold newer_first in Hall. simpl in Hall. lia.
Qed.

Lemma appended_note_listed_first_witness :
  let old := mkNote 1 (lit "EDA") (lit "First answer.") (lit "a.pdf") 100 100 in
  table_ok sample_table /\ old ∈ rows sample_table
  /\ Forall (fun n => note_updated_at n < 300) (rows sample_table)
  /\ exists t' rest,
       append_to_note 1 (lit "More.") (lit "c.pdf") 300 (Some sample_table)
       = (Some t', Returned tt)
       /\ list_notes (Some t')
          = Returned (mkNote 1 (lit "EDA") (lit "First answer." ++ NOTE_SEP ++ lit "More.")
                        (lit "a.pdf" ++ lit ", " ++ lit "c.pdf") 100 300 :: rest).
Proof.
  cbv zeta.
  assert (Hin : mkNote 1 (lit "EDA") (lit "First answer.") (lit "a.pdf") 100 100
                ∈ rows sample_table) by (simpl; by left).
  assert (Hbefore : Forall (fun n => note_updated_at n < 300) (rows sample_table))
    by (repeat constructor; simpl; lia).
  split; [exact sample_table_ok|]. split; [exact Hin|]. split; [exact Hbefore|].
  exact (appended_note_listed_first _ (lit "More.") (lit "c.pdf") 300 sample_table
           sample_table_ok Hin Hbefore).
Defined.

(* ===================================================================== *)
(** ** The note export *)
(* ===================================================================== *)

Lemma split_paragraphs_cons (c c' : N) (rest cur : pystr) :
  split_paragraphs (c :: c' :: rest) cur
  = if ((c =? NL) && (c' =? NL))%N
    then cur :: split_paragraphs rest []
    else split_paragraphs (c' :: rest) (cur ++ [c]).
Proof. reflexivity. Qed.

Lemma split_paragraphs_nonempty (s cur : pystr) : split_paragraphs s cur <> [].
Proof.
  remember (length s) as n eqn:Hn. revert s cur Hn.
  induction n as [n IH] using lt_wf_ind. intros s cur Hn.
  destruct s as [|c [|c' rest]]; [discriminate|discriminate|].
  rewrite split_paragraphs_cons.
  destruct ((c =? NL) && (c' =? NL))%N; [discriminate|].
  apply (IH (length (c' :: rest))); [subst n; simpl; lia|reflexivity].
Qed.

Lemma join_cons (sep p : pystr) (rest : list pystr) :
  rest <> [] -> join sep (p :: rest) = p ++ sep ++ join sep rest.
Proof. destruct rest; [congruence|reflexivity]. Qed.

Lemma split_paragraphs_join (s : pystr) :
  forall cur, join [NL; NL] (split_paragraphs s cur) = cur ++ s.
Proof.
  remember (length s) as n eqn:Hn. revert s Hn.
  induction n as [n IH] using lt_wf_ind. intros s Hn cur.
  destruct s as [|c [|c' rest]].
  - simpl. by rewrite app_nil_r.
  - reflexivity.
  - rewrite split_paragraphs_cons.
    destruct (N.eqb_spec c NL) as [->|Hc]; [destruct (N.eqb_spec c' NL) as [->|Hc']|];
      simpl andb; cbv iota.
    + rewrite join_cons by apply split_paragraphs_nonempty.
      rewrite (IH (length rest)) by (subst n; simpl; lia || reflexivity). reflexivity.
    + rewrite (IH (length (c' :: rest))) by (subst n; simpl; lia || reflexivity).
      by rewrite <- app_assoc.
    + rewrite (IH (length (c' :: rest))) by (subst n; simpl; lia || reflexivity).
      by rewrite <- app_assoc.
Qed.

Section ExportFacts.

Context `{M : Markup}.

Lemma body_paragraphs_of_loop (paras : list pystr) :
  body_paragraphs
    (flat_map (fun para => [ Paragraph para (lit "BodyText"); Spacer 1 10 ]) paras)
  = paras.
Proof.
  induction paras as [|p l IH]; [reflexivity|].
  unfold body_paragraphs in *. simpl. by rewrite IH.
Qed.

(** The loop over the paragraphs returns exactly when the parser accepts
    every one of them, and then it has appended a paragraph and a spacer for
    each. *)
Lemma body_loop_outcome (paras : list pystr) :
  forall elements,
    match body_loop paras elements with
    | Returned els =>
        Forall (fun t => parse_error t = None) paras
        /\ els = elements
                 ++ flat_map (fun para => [ Paragraph para (lit "BodyText"); Spacer 1 10 ])
                             paras
    | Raised _ => ~ Forall (fun t => parse_error t = None) paras
    end.
Proof.
  induction paras as [|p l IH]; intros elements; simpl.
  - split; [constructor|by rewrite app_nil_r].
  - unfold new_paragraph. destruct (parse_error p) as [msg|] eqn:Hp.
    + intros H. apply Forall_cons in H as [H _]. congruence.
    + specialize (IH (elements ++ [ Paragraph p (lit "BodyText"); Spacer 1 10 ])).
      destruct (body_loop l _) as [els|e].
      * destruct IH as [Hall ->]. split; [by constructor|]. by rewrite <- app_assoc.
      * intros H. apply Forall_cons in H as [_ H]. by apply IH.
Qed.

(** [generate_note_pdf] gets as far as [doc.build] exactly when the parser
    accepts every text it makes a [Paragraph] of: the title in its markup,
    each piece of the content, the sources and the two fixed lines;
    otherwise it raises and nothing is built. When it gets there the export
    has lost nothing of the note: the body paragraphs among the flowables
    are the pieces of the content followed by the sources, the pieces joined
    by blank lines give back the content, and besides two flowables per
    piece there are seven more. *)
Theorem export_keeps_content (title content sources generated_on : pystr) :
  match generate_note_pdf title content sources generated_on with
  | Returned els =>
      Forall (fun t => parse_error t = None)
             (paragraph_texts title content sources generated_on)
      /\ exists paras,
           body_paragraphs els = paras ++ [sources]
           /\ join [NL; NL] paras = content
           /\ paras <> []
           /\ length els = (2 * length paras + 7)%nat
  | Raised _ =>
      ~ Forall (fun t => parse_error t = None)
               (paragraph_texts title content sources generated_on)
  end.
Proof.
  unfold generate_note_pdf, paragraph_texts, new_paragraph.
  destruct (parse_error (lit "<b>" ++ title ++ lit "</b>")) as [m0|] eqn:H0.
  { intros H. apply Forall_cons in H as [H _]. congruence. }
  pose proof (body_loop_outcome (split_paragraphs content [])
                [ Paragraph (lit "<b>" ++ title ++ lit "</b>") (lit "Title"); Spacer 1 12 ])
    as Hbody.
  destruct (body_loop (split_paragraphs content []) _) as [els|e].
  2: { intros H. apply Forall_cons in H as [_ H]. apply Forall_app in H as [H _].
       by apply Hbody. }
  destruct Hbody as [Hparas ->].
  destruct (parse_error (lit "<b>Sources</b>")) as [m1|] eqn:H1.
  { intros H. apply Forall_cons in H as [_ H]. apply Forall_app in H as [_ H].
    apply Forall_cons in H as [H _]. congruence. }
  destruct (parse_error sources) as [m2|] eqn:H2.
  { intros H. apply Forall_cons in H as [_ H]. apply Forall_app in H as [_ H].
    apply Forall_cons in H as [_ H]. apply Forall_cons in H as [H _]. congruence. }
  destruct (parse_error (lit "<i>Generated on " ++ generated_on ++ lit "</i>"))
    as [m3|] eqn:H3.
  { intros H. apply Forall_cons in H as [_ H]. apply Forall_app in H as [_ H].
    apply Forall_cons in H as [_ H]. apply Forall_cons in H as [_ H].
    apply Forall_cons in H as [H _]. congruence. }
  split.
  - constructor; [exact H0|]. apply Forall_app. split; [exact Hparas|].
    repeat constructor; assumption.
  - exists (split_paragraphs content []). split; [|split; [|split]].
    + unfold body_paragraphs. rewrite !flat_map_app.
      fold (body_paragraphs
              (flat_map (fun para => [ Paragraph para (lit "BodyText"); Spacer 1 10 ])
                        (split_paragraphs content []))).
      rewrite body_paragraphs_of_loop. reflexivity.
    + apply split_paragraphs_join.
    + apply split_paragraphs_nonempty.
    + rewrite !length_app. simpl.
      assert (Hlen : forall l : list pystr,
                length (flat_map (fun para => [ Paragraph para (lit "BodyText");
                                                Spacer 1 10 ]) l)
                = (2 * length l)%nat)
        by (induction l as [|x l IH]; [reflexivity|simpl; rewrite IH; lia]).
      rewrite Hlen. lia.
Qed.

End ExportFacts.

Lemma export_keeps_content_witness :
  generate_note_pdf (M := sample_markup) (lit "EDA")
    (lit "First." ++ [NL; NL] ++ lit "Second.") (lit "a.pdf") (lit "03 Nov 2026, 12:00 PM")
  = Returned
      [ Paragraph (lit "<b>EDA</b>") (lit "Title"); Spacer 1 12;
        Paragraph (lit "First.") (lit "BodyText"); Spacer 1 10;
        Paragraph (lit "Second.") (lit "BodyText"); Spacer 1 10;
        Spacer 1 16; Paragraph (lit "<b>Sources</b>") (lit "Heading2");
        Paragraph (lit "a.pdf") (lit "BodyText"); Spacer 1 20;
        Paragraph (lit "<i>Generated on 03 Nov 2026, 12:00 PM</i>") (lit "Normal") ]
  /\ Forall (fun t => parse_error (Markup := sample_markup) t = None)
        (paragraph_texts (lit "EDA") (lit "First." ++ [NL; NL] ++ lit "Second.")
           (lit "a.pdf") (lit "03 Nov 2026, 12:00 PM"))
  /\ (exists e,
        generate_note_pdf (M := sample_markup) (lit "see <b>bold")
          (lit "First.") (lit "a.pdf") (lit "03 Nov 2026, 12:00 PM") = Raised e)
  /\ ~ Forall (fun t => parse_error (Markup := sample_markup) t = None)
        (paragraph_texts (lit "see <b>bold") (lit "First.") (lit "a.pdf")
           (lit "03 Nov 2026, 12:00 PM")).
Proof.
  pose proof (export_keeps_content (M := sample_markup) (lit "EDA")
                (lit "First." ++ [NL; NL] ++ lit "Second.") (lit "a.pdf")
                (lit "03 Nov 2026, 12:00 PM")) as Hok.
  pose proof (export_keeps_content (M := sample_markup) (lit "see <b>bold")
                (lit "First.") (lit "a.pdf") (lit "03 Nov 2026, 12:00 PM")) as Hbad.
  split; [vm_compute; reflexivity|].
  destruct (generate_note_pdf (M := sample_markup) (lit "EDA") _ _ _) as [els|e] eqn:E1;
    [|vm_compute in E1; discriminate E1].
  destruct Hok as [Hall _]. split; [exact Hall|].
  destruct (generate_note_pdf (M := sample_markup) (lit "see <b>bold") _ _ _)
    as [els'|e'] eqn:E2; [vm_compute in E2; discriminate E2|].
  split; [by exists e'|exact Hbad].
Defined.

(** A blank line ahead of [rest] ends the piece that is being read, unless
    the text before it ends in a line feed of its own. *)
Lemma split_paragraphs_app (s : pystr) :
  forall cur rest,
    (forall u, s <> u ++ [NL]) ->
    split_paragraphs (s ++ NL :: NL :: rest) cur
    = split_paragraphs s cur ++ split_paragraphs rest [].
Proof.
  remember (length s) as n eqn:Hn. revert s Hn.
  induction n as [n IH] using lt_wf_ind. intros s Hn cur rest Hend.
  destruct s as [|c [|c' t]].
  - reflexivity.
  - assert (Hc : c <> NL) by (intros ->; by apply (Hend [])).
    simpl. destruct (N.eqb_spec c NL); [contradiction|]. reflexivity.
  - assert (Hend' : forall u, c' :: t <> u ++ [NL])
      by (intros u Hu; apply (Hend (c :: u)); simpl; by rewrite Hu).
    change ((c :: c' :: t) ++ NL :: NL :: rest)
      with (c :: c' :: (t ++ NL :: NL :: rest)).
    rewrite !split_paragraphs_cons.
    destruct ((c =? NL) && (c' =? NL))%N.
    + simpl. f_equal. apply (IH (length t)); [subst n; simpl; lia|reflexivity|].
      intros u Hu. apply (Hend (c :: c' :: u)). simpl. by rewrite Hu.
    + apply (IH (length (c' :: t)) ltac:(subst n; simpl; lia) (c' :: t) eq_refl).
      exact Hend'.
Qed.

(** Export after append: when the old content does not end in a line feed,
    the paragraphs of the appended note are the old paragraphs, one
    paragraph ["---"], and the new paragraphs. *)
Theorem appended_note_paragraphs (old_content new_content : pystr) :
  (forall u, old_content <> u ++ [NL]) ->
  split_paragraphs (old_content ++ NOTE_SEP ++ new_content) []
  = split_paragraphs old_content [] ++ [ lit "---" ] ++ split_paragraphs new_content [].
Proof.
  intros Hend.
  change (old_content ++ NOTE_SEP ++ new_content)
    with (old_content ++ NL :: NL :: (lit "---" ++ NL :: NL :: new_content)).
  rewrite split_paragraphs_app by exact Hend. reflexivity.
Qed.

Lemma appended_note_paragraphs_witness :
  (forall u, lit "First answer." <> u ++ [NL])
  /\ split_paragraphs (lit "First answer." ++ NOTE_SEP ++ lit "More.") []
     = split_paragraphs (lit "First answer.") [] ++ [ lit "---" ]
       ++ split_paragraphs (lit "More.") [].
Proof.
  assert (H : forall u, lit "First answer." <> u ++ [NL]).
  { intros u Hu. apply (f_equal (@rev N)) in Hu. rewrite rev_app_distr in Hu.
    simpl in Hu. vm_compute in Hu. discriminate Hu. }
  split; [exact H|].
  exact (appended_note_paragraphs (lit "First answer.") (lit "More.") H).
Defined.

(* ===================================================================== *)
(** ** The further facts on sample data *)
(* ===================================================================== *)


Lemma ingestion_frame_witness :
  let w := world_with_two_pdfs (lit "./uploads/a.pdf") 100%N (lit "./uploads/b.pdf") 90%N in
  let w' := fst (process_and_index_faiss (lit "./uploads/a.pdf") (lit "a.pdf") (lit "aa") w) in
  (lit "./uploads/b.pdf" ∉ ingestion_paths (B := sample_backend) (lit "aa"))
  /\ files w' !! lit "./uploads/b.pdf" = files w !! lit "./uploads/b.pdf"
  /\ environ w' = environ w.
Proof.
  assert (H : (lit "./uploads/b.pdf" ∉ ingestion_paths (B := sample_backend) (lit "aa"))).
  { unfold ingestion_paths. rewrite pending_path_eq.
    repeat (apply not_elem_of_cons; split; [discriminate|]). apply not_elem_of_nil. }
  cbv zeta. split; [exact H|].
  destruct (ingestion_frame (B := sample_backend) (lit "./uploads/a.pdf") (lit "a.pdf")
              (lit "aa")
              (world_with_two_pdfs (lit "./uploads/a.pdf") 100%N (lit "./uploads/b.pdf") 90%N)
              (lit "./uploads/b.pdf") H) as (Hf & He & _).
  split; [exact Hf|exact He].
Defined.

Lemma sample_ingestion_indexed :
  process_and_index_faiss (lit "./uploads/tmp1.pdf") (lit "sample.pdf") (lit "ab12")
    (world_with_pdf true (lit "./uploads/tmp1.pdf") 100%N)
  = (world_after_ingestion, Returned (Indexed 1 FAISS_DIR)).
Proof. vm_compute. reflexivity. Qed.

Lemma success_leaves_pending_and_log_witness :
  process_and_index_faiss (lit "./uploads/tmp1.pdf") (lit "sample.pdf") (lit "ab12")
    (world_with_pdf true (lit "./uploads/tmp1.pdf") 100%N)
  = (world_after_ingestion, Returned (Indexed 1 FAISS_DIR))
  /\ log_text world_after_ingestion
     = log_text (world_with_pdf true (lit "./uploads/tmp1.pdf") 100%N)
  /\ isdir world_after_ingestion FAISS_DIR = true.
Proof.
  split; [exact sample_ingestion_indexed|].
  destruct (success_leaves_pending_and_log (B := sample_backend) _ _ _ _ _ _ _
              sample_ingestion_indexed) as (_ & _ & Hlog & Hdir).
  split; [exact Hlog|exact Hdir].
Defined.

Lemma ingest_then_load_witness :
  process_and_index_faiss (lit "./uploads/tmp1.pdf") (lit "sample.pdf") (lit "ab12")
    (world_with_pdf true (lit "./uploads/tmp1.pdf") 100%N)
  = (world_after_ingestion, Returned (Indexed 1 FAISS_DIR))
  /\ exists store, load_retriever world_after_ingestion = Returned (Some store).
Proof.
  split; [exact sample_ingestion_indexed|].
  destruct (ingest_then_load (B := sample_backend) _ _ _ _ _ _ _ sample_ingestion_indexed)
    as (ps & store & _ & _ & Hload).
  exists store. exact Hload.
Defined.

Lemma limit_upload_nonempty :
  Forall (fun b => blen (Backend := sample_backend) b <> 0%N) limit_upload.
Proof. apply Forall_replicate. discriminate. Qed.

Lemma background_upload_accepted_witness :
  endswith (List.map lower_char (lit "big.pdf")) (lit ".pdf") = true
  /\ total_bytes (B := sample_backend) limit_upload <= MAX_BYTES
  /\ exists w',
       upload_pdf (B := sample_backend) (lit "big.pdf") limit_upload true
                  (lit "./uploads/tmp1.pdf") (empty_world true)
       = (w', Returned (Uploaded (lit "ab12") (lit "Indexing started in background.")))
       /\ background_tasks w'
          = [ (lit "./uploads/tmp1.pdf", lit "big.pdf", lit "ab12") ].
Proof.
  assert (H1 : endswith (List.map lower_char (lit "big.pdf")) (lit ".pdf") = true)
    by (vm_compute; reflexivity).
  assert (H3 : total_bytes (B := sample_backend) limit_upload <= MAX_BYTES)
    by (vm_compute; discriminate).
  split; [exact H1|]. split; [exact H3|].
  destruct (background_upload_accepted (B := sample_backend) (lit "big.pdf") limit_upload
              (lit "./uploads/tmp1.pdf") (empty_world true) H1 limit_upload_nonempty H3)
    as (w' & Hrun & _ & Htasks & _).
  exists w'. split; [exact Hrun|exact Htasks].
Defined.

Lemma one_block_nonempty :
  Forall (fun b => blen (Backend := sample_backend) b <> 0%N) [100%N].
Proof. repeat constructor. discriminate. Qed.

Lemma sync_upload_result_witness :
  endswith (List.map lower_char (lit "t.pdf")) (lit ".pdf") = true
  /\ total_bytes (B := sample_backend) [100%N] <= MAX_BYTES
  /\ match process_and_index_faiss (lit "./uploads/tmp1.pdf") (lit "t.pdf")
             (sha256_hexdigest (Backend := sample_backend) [100%N])
             (with_files (empty_world true)
                (<[ lit "./uploads/tmp1.pdf" := FBytes (B := sample_backend) [100%N] ]>
                   (files (empty_world true)))) with
     | (w2, Returned r) =>
         upload_pdf (B := sample_backend) (lit "t.pdf") [100%N] false
                    (lit "./uploads/tmp1.pdf") (empty_world true)
         = (w2, Returned r)
     | (_, Raised e) =>
         exists w',
           upload_pdf (B := sample_backend) (lit "t.pdf") [100%N] false
                      (lit "./uploads/tmp1.pdf") (empty_world true)
           = (w', Raised (HTTPException 500 (str_exn e)))
           /\ files w' !! lit "./uploads/tmp1.pdf" = None
     end.
Proof.
  assert (H1 : endswith (List.map lower_char (lit "t.pdf")) (lit ".pdf") = true)
    by (vm_compute; reflexivity).
  assert (H3 : total_bytes (B := sample_backend) [100%N] <= MAX_BYTES)
    by (vm_compute; discriminate).
  split; [exact H1|]. split; [exact H3|].
  exact (sync_upload_result (B := sample_backend) (lit "t.pdf") [100%N]
           (lit "./uploads/tmp1.pdf") (empty_world true) H1 one_block_nonempty H3).
Defined.

Lemma sync_upload_keeps_temp_file_witness :
  let run := upload_pdf (B := sample_backend) (lit "t.pdf") [100%N] false
               (lit "./uploads/tmp1.pdf") (empty_world true) in
  endswith (List.map lower_char (lit "t.pdf")) (lit ".pdf") = true
  /\ total_bytes (B := sample_backend) [100%N] <= MAX_BYTES
  /\ (lit "./uploads/tmp1.pdf"
      ∉ ingestion_paths (B := sample_backend)
          (sha256_hexdigest (Backend := sample_backend) [100%N]))
  /\ run = (fst run, Returned (Indexed 1 FAISS_DIR))
  /\ files (fst run) !! lit "./uploads/tmp1.pdf"
     = Some (FBytes (B := sample_backend) [100%N]).
Proof.
  assert (H1 : endswith (List.map lower_char (lit "t.pdf")) (lit ".pdf") = true)
    by (vm_compute; reflexivity).
  assert (H3 : total_bytes (B := sample_backend) [100%N] <= MAX_BYTES)
    by (vm_compute; discriminate).
  assert (H4 : (lit "./uploads/tmp1.pdf"
                ∉ ingestion_paths (B := sample_backend)
                    (sha256_hexdigest (Backend := sample_backend) [100%N]))).
  { unfold ingestion_paths. rewrite pending_path_eq.
    repeat (apply not_elem_of_cons; split; [discriminate|]). apply not_elem_of_nil. }
  assert (H5 : upload_pdf (B := sample_backend) (lit "t.pdf") [100%N] false
                 (lit "./uploads/tmp1.pdf") (empty_world true)
               = (fst (upload_pdf (B := sample_backend) (lit "t.pdf") [100%N] false
                         (lit "./uploads/tmp1.pdf") (empty_world true)),
                  Returned (Indexed 1 FAISS_DIR))) by (vm_compute; reflexivity).
  cbv zeta. split; [exact H1|]. split; [exact H3|]. split; [exact H4|]. split; [exact H5|].
  exact (sync_upload_keeps_temp_file (B := sample_backend) (lit "t.pdf") [100%N]
           (lit "./uploads/tmp1.pdf") (empty_world true) _ _ H1 one_block_nonempty H3 H4 H5).
Defined.

Lemma upload_errors_are_400_or_500_witness :
  upload_pdf (B := sample_backend) (lit "notes.txt") [100%N] false
    (lit "./uploads/tmp1.pdf") (empty_world true)
  = (empty_world true, Raised (HTTPException 400 (lit "Only PDF files are accepted.")))
  /\ ((endswith (List.map lower_char (lit "notes.txt")) (lit ".pdf") = false
       /\ HTTPException 400 (lit "Only PDF files are accepted.")
          = HTTPException 400 (lit "Only PDF files are accepted.")
       /\ empty_world true = empty_world true)
      \/ (endswith (List.map lower_char (lit "notes.txt")) (lit ".pdf") = true
          /\ (exists detail,
                HTTPException 400 (lit "Only PDF files are accepted.")
                = HTTPException 500 detail)
          /\ files (empty_world true) !! lit "./uploads/tmp1.pdf" = None)).
Proof.
  assert (H : upload_pdf (B := sample_backend) (lit "notes.txt") [100%N] false
                (lit "./uploads/tmp1.pdf") (empty_world true)
              = (empty_world true,
                 Raised (HTTPException 400 (lit "Only PDF files are accepted."))))
    by reflexivity.
  split; [exact H|].
  exact (upload_errors_are_400_or_500 (B := sample_backend) _ _ _ _ _ _ _ H).
Defined.

Lemma short_index_loads :
  load_retriever world_with_short_index
  = Returned (Some [ (tt, mkDocument (lit "  too short  ") ∅) ]).
Proof. vm_compute. reflexivity. Qed.

Lemma short_matches_not_enough_witness :
  let db := [ (tt, mkDocument (lit "  too short  ") ∅) ] in
  load_retriever world_with_short_index = Returned (Some db)
  /\ similarity_search (Backend := sample_backend) db 6 (lit "What is EDA?") <> []
  /\ Forall (fun d => len (strip (page_content d)) < 80)
            (similarity_search (Backend := sample_backend) db 6 (lit "What is EDA?"))
  /\ answer_question (lit "What is EDA?") world_with_short_index
     = Returned (NOT_ENOUGH, []).
Proof.
  cbv zeta.
  assert (H2 : similarity_search (Backend := sample_backend)
                 [ (tt, mkDocument (lit "  too short  ") ∅) ] 6 (lit "What is EDA?") <> [])
    by discriminate.
  assert (H3 : Forall (fun d => len (strip (page_content d)) < 80)
                 (similarity_search (Backend := sample_backend)
                    [ (tt, mkDocument (lit "  too short  ") ∅) ] 6 (lit "What is EDA?")))
    by (repeat constructor).
  split; [exact short_index_loads|]. split; [exact H2|]. split; [exact H3|].
  exact (short_matches_not_enough (B := sample_backend) (lit "What is EDA?")
           world_with_short_index _ short_index_loads H2 H3).
Defined.

Lemma empty_sources_fixed_answer_witness :
  answer_question (lit "What is EDA?") world_with_short_index = Returned (NOT_ENOUGH, [])
  /\ (NOT_ENOUGH = NO_DOCUMENTS \/ NOT_ENOUGH = NO_RELEVANT \/ NOT_ENOUGH = NOT_ENOUGH).
Proof.
  assert (H : answer_question (lit "What is EDA?") world_with_short_index
              = Returned (NOT_ENOUGH, [])) by (vm_compute; reflexivity).
  split; [exact H|].
  exact (empty_sources_fixed_answer (B := sample_backend) _ _ _ H).
Defined.

Lemma sample_answer :
  answer_question (lit "What is on page 1?") world_after_ingestion
  = Returned (lit "An answer.",
              [ {| src_source := VStr (lit "sample.pdf"); src_chunk := VStr [];
                   src_snippet := letters 100 |} ]).
Proof. vm_compute. reflexivity. Qed.

Lemma snippet_bounds_witness :
  answer_question (lit "What is on page 1?") world_after_ingestion
  = Returned (lit "An answer.",
              [ {| src_source := VStr (lit "sample.pdf"); src_chunk := VStr [];
                   src_snippet := letters 100 |} ])
  /\ Forall (fun s => 80 <= len (src_snippet s) <= 300)
            [ {| src_source := VStr (lit "sample.pdf"); src_chunk := VStr [];
                 src_snippet := letters 100 |} ].
Proof.
  split; [exact sample_answer|].
  exact (snippet_bounds (B := sample_backend) _ _ _ _ sample_answer).
Defined.

Lemma answer_is_trimmed_witness :
  answer_question (lit "What is on page 1?") world_after_ingestion
  = Returned (lit "An answer.",
              [ {| src_source := VStr (lit "sample.pdf"); src_chunk := VStr [];
                   src_snippet := letters 100 |} ])
  /\ trimmed (lit "An answer.").
Proof.
  split; [exact sample_answer|].
  exact (answer_is_trimmed (B := sample_backend) _ _ _ _ sample_answer).
Defined.

(* ===================================================================== *)
(** ** Extraction: page numbers *)
(* ===================================================================== *)

Lemma imap_page_numbers (texts : list pystr) :
  forall k : Z,
    List.map fst (imap (fun i t => (Z.of_nat i + k, t)) texts)
    = seqZ k (Z.of_nat (length texts)).
Proof.
  induction texts as [|t l IH]; intros k; [reflexivity|].
  rewrite imap_cons, seqZ_cons by (simpl length; lia). simpl List.map. f_equal.
  replace (Z.pred (Z.of_nat (length (t :: l)))) with (Z.of_nat (length l))
    by (simpl length; lia).
  rewrite <- IH. f_equal. apply imap_ext. intros i x _. simpl. f_equal. lia.
Qed.

Section ExtractionFacts.

Context `{B : Backend}.

(** The extractor numbers the pages 1, 2, ..., n in reading order. The
    numbers are therefore distinct, and among the chunks of an ingested file
    each page number is attributed at most once. *)
Theorem extracted_pages_numbered (w : World) (pdf_path : pystr) (ps : list Page) :
  extract_text_page_by_page w pdf_path = Returned ps ->
  List.map fst ps = seqZ 1 (len ps)
  /\ NoDup (concat (List.map pages (chunk_objs ps))).
Proof.
  unfold extract_text_page_by_page.
  destruct (files w !! pdf_path) as [[data| | |]|]; try discriminate.
  destruct (pdf_page_texts data) as [err|texts]; [discriminate|].
  intros [= <-].
  assert (Hnum : List.map fst (imap (fun i t => (Z.of_nat i + 1, t)) texts)
                 = seqZ 1 (len (imap (fun i (t : pystr) => (Z.of_nat i + 1, t)) texts))).
  { unfold len. rewrite length_imap. apply imap_page_numbers. }
  split; [exact Hnum|].
  unfold chunk_objs, chunks_from_pages.
  apply pages_loop_attribution; [rewrite Hnum; apply NoDup_seqZ|set_solver].
Qed.

End ExtractionFacts.

Lemma extracted_pages_numbered_witness :
  let w := with_files (empty_world true)
             {[ lit "./uploads/tmp1.pdf" := FBytes (B := sample_backend) [1500%N; 1500%N] ]} in
  let ps := [(1, letters 1500); (2, letters 1500)] in
  extract_text_page_by_page w (lit "./uploads/tmp1.pdf") = Returned ps
  /\ List.map fst ps = seqZ 1 (len ps)
  /\ NoDup (concat (List.map pages (chunk_objs ps))).
Proof.
  cbv zeta.
  assert (H : extract_text_page_by_page
                (with_files (empty_world true)
                   {[ lit "./uploads/tmp1.pdf"
                      := FBytes (B := sample_backend) [1500%N; 1500%N] ]})
                (lit "./uploads/tmp1.pdf")
              = Returned [(1, letters 1500); (2, letters 1500)])
    by (vm_compute; reflexivity).
  split; [exact H|].
  exact (extracted_pages_numbered (B := sample_backend) _ _ _ H).
Defined.
